(** * mcp-web-snapshot: the snapshot tool of [src/tools/snapshot_url.py]

    A shallow embedding of the Python module and the properties of its
    helpers ([should_show_content], [format_requests], [format_console],
    [add_element_refs], [parse_refs], [is_valid_url]), of the two network
    recorder callbacks and of the orchestrator [website_snapshot]. *)

From Stdlib Require Import ZArith NArith List Bool Lia.
From Stdlib Require Import Strings.String Strings.Ascii Strings.Byte.
From Stdlib Require Import Decimal DecimalPos.
From stdpp Require Import base option list gmap.

Local Open Scope Z_scope.

(** ** Python [str] values

    A Python [str] is a sequence of Unicode code points: slicing, [len] and
    [find] count code points, so a [str] is a list of code points and not a
    list of bytes. *)

Module Py.

Abbreviation char := N (only parsing).
Abbreviation str := (list N) (only parsing).

(** String literals of the development are written as in the source; [u]
    decodes their UTF-8 bytes into code points. *)
Fixpoint utf8 (bs : list N) : str :=
  match bs with
  | [] => []
  | b0 :: t0 =>
    if (b0 <? 0x80)%N then b0 :: utf8 t0
    else if (b0 <? 0xE0)%N then
      match t0 with
      | b1 :: t1 => ((b0 - 0xC0) * 0x40 + (b1 - 0x80))%N :: utf8 t1
      | _ => []
      end
    else if (b0 <? 0xF0)%N then
      match t0 with
      | b1 :: b2 :: t2 =>
        ((b0 - 0xE0) * 0x1000 + (b1 - 0x80) * 0x40 + (b2 - 0x80))%N :: utf8 t2
      | _ => []
      end
    else
      match t0 with
      | b1 :: b2 :: b3 :: t3 =>
        ((b0 - 0xF0) * 0x40000 + (b1 - 0x80) * 0x1000
         + (b2 - 0x80) * 0x40 + (b3 - 0x80))%N :: utf8 t3
      | _ => []
      end
  end.

Definition u (s : string) : str :=
  utf8 (List.map Byte.to_N (list_byte_of_string s)).
Arguments u s%_string.

Definition LF : char := 10%N.

(** [s.startswith(p)] *)
Fixpoint startswith (p s : str) : bool :=
  match p, s with
  | [], _ => true
  | _ :: _, [] => false
  | a :: p', b :: s' => (a =? b)%N && startswith p' s'
  end.

(** Offset of the first occurrence of [sub] in [s], if any. *)
Fixpoint index (sub s : str) : option nat :=
  match s with
  | [] => if startswith sub [] then Some 0%nat else None
  | _ :: s' => if startswith sub s then Some 0%nat else S <$> index sub s'
  end.

(** [sub in s] *)
Definition contains (sub s : str) : bool :=
  match index sub s with Some _ => true | None => false end.

(** [s.find(sub, start)]: the lowest index at or after [start] where [sub]
    occurs, [-1] when there is none. *)
Definition find (sub s : str) (start : Z) : Z :=
  let n := Z.of_nat (length s) in
  let st := if start <? 0 then Z.max 0 (start + n) else start in
  if n <? st then -1
  else match index sub (drop (Z.to_nat st) s) with
       | Some i => st + Z.of_nat i
       | None => -1
       end.

(** Slice bounds: a negative bound counts from the end, and every bound is
    clamped to [0 .. len]. *)
Definition clamp (n i : Z) : Z :=
  if i <? 0 then Z.max 0 (i + n) else Z.min i n.

(** [s[lo:hi]] *)
Definition slice (s : str) (lo hi : Z) : str :=
  let n := Z.of_nat (length s) in
  let a := clamp n lo in
  let b := clamp n hi in
  take (Z.to_nat (b - a)) (drop (Z.to_nat a) s).

(** [s[:hi]] *)
Definition slice_to (s : str) (hi : Z) : str := slice s 0 hi.

(** [s.split(sep)] for a separator of one character. *)
Fixpoint split (sep : char) (s : str) : list str :=
  match s with
  | [] => [[]]
  | c :: s' =>
    if (c =? sep)%N then [] :: split sep s'
    else match split sep s' with
         | [] => [[c]]
         | w :: ws => (c :: w) :: ws
         end
  end.

(** [sep.join(parts)] *)
Fixpoint join (sep : str) (parts : list str) : str :=
  match parts with
  | [] => []
  | [p] => p
  | p :: ps => p ++ sep ++ join sep ps
  end.

(** [str.isspace] on one character: the code points CPython's
    [_PyUnicode_IsWhitespace] accepts. *)
Definition isspace (c : char) : bool :=
  ((0x09 <=? c) && (c <=? 0x0D) || (0x1C <=? c) && (c <=? 0x20)
   || (c =? 0x85) || (c =? 0xA0) || (c =? 0x1680)
   || (0x2000 <=? c) && (c <=? 0x200A)
   || (c =? 0x2028) || (c =? 0x2029) || (c =? 0x202F)
   || (c =? 0x205F) || (c =? 0x3000))%N.

Fixpoint lstrip (s : str) : str :=
  match s with
  | [] => []
  | c :: s' => if isspace c then lstrip s' else s
  end.

Definition rstrip (s : str) : str := rev (lstrip (rev s)).

(** [s.strip()] *)
Definition strip (s : str) : str := lstrip (rstrip s).

(** [str(n)] for an [int]: decimal digits, with a minus sign when negative. *)
Fixpoint digits (d : Decimal.uint) : str :=
  match d with
  | Nil => []
  | D0 d => 48%N :: digits d
  | D1 d => 49%N :: digits d
  | D2 d => 50%N :: digits d
  | D3 d => 51%N :: digits d
  | D4 d => 52%N :: digits d
  | D5 d => 53%N :: digits d
  | D6 d => 54%N :: digits d
  | D7 d => 55%N :: digits d
  | D8 d => 56%N :: digits d
  | D9 d => 57%N :: digits d
  end.

Definition str_of_int (z : Z) : str :=
  match z with
  | Z0 => [48%N]
  | Zpos p => digits (Pos.to_uint p)
  | Zneg p => 45%N :: digits (Pos.to_uint p)
  end.

(** Truthiness of a [str]: the empty string is falsy. *)
Definition truthy (s : str) : bool :=
  match s with [] => false | _ :: _ => true end.

(** The character [c] does not occur in [s]. *)
Definition no_char (c : char) (s : str) : Prop := Forall (fun x => x <> c) s.

End Py.

Export Py.

(** ** Built-in functions of the interpreter and its standard library

    [str.lower], [str.upper], [int] and [urllib.parse.urlparse] are not part
    of the module: the embedding takes them as an interface, so every
    statement below holds for whatever these functions compute. *)

(** An exception object: whether its class derives from [Exception] (what an
    [except Exception] clause catches) and the text [str(error)] gives. *)
Record exn : Type := Exn {
  is_Exception : bool;
  message : str
}.

(** Outcome of a call that may raise. *)
Definition result (A : Type) : Type := exn + A.
Definition Ok {A : Type} (a : A) : result A := inr a.
Definition Raise {A : Type} (e : exn) : result A := inl e.

(** The fields of [urlparse]'s result that the module reads. *)
Record ParseResult : Type := {
  scheme : str;
  netloc : str
}.

Class Builtins : Type := {
  lower : str -> str;
  upper : str -> str;
  int : str -> result Z;
  urlparse : str -> result ParseResult
}.

(** ** Data model *)

(** A browser request object. Python compares two of them with [==] by
    identity; [handle] is that identity. [post_data] is what
    [await request.post_data()] gives. *)
Module Request.
Record t : Type := {
  handle : nat;
  method : str;
  url : str;
  post_data : result (option str)
}.
End Request.

(** A browser response object; [text] is what [await response.text()]
    gives. *)
Module Response.
Record t : Type := {
  status : Z;
  request : Request.t;
  headers : gmap str str;
  text : result str
}.
End Response.

(** [@dataclass class NetworkRequest] *)
Module NetworkRequest.
Record t : Type := {
  request : option Request.t;
  response : option Response.t;
  request_body : option str;
  response_body : option str
}.
End NetworkRequest.
Abbreviation NetworkRequest := NetworkRequest.t.

(** A console message: [type] and [text] are the attributes [getattr] looks
    up (absent on an object that has none), [repr] is [str(msg)]. *)
Module ConsoleMessage.
Record t : Type := {
  type : option str;
  text : option str;
  repr : str
}.
End ConsoleMessage.

(** [mcp.types.TextContent] *)
Module TextContent.
Record t : Type := {
  type : str;
  text : str
}.
End TextContent.
Abbreviation TextContent := TextContent.t.

(** An entry of [parse_refs]'s result, the dict with keys ["ref"] and
    ["element"]. *)
Record RefEntry : Type := {
  ref : str;
  element : str
}.

(** Truthiness of an [Optional] object: [None] is falsy, a browser object is
    truthy. *)
Definition is_set {A : Type} (o : option A) : bool :=
  match o with Some _ => true | None => false end.

(** ** Helpers of the module *)

Section Helpers.
Context `{Builtins}.

Definition should_show_content (content_type : str) (content_length : Z) : bool :=
  (content_length <=? 50000)
  && existsb (fun t => startswith t content_type)
       [u "application/json"; u "text/"; u "application/xml"].

(** One iteration of the loop of [format_requests]. *)
Definition format_requests_step (formatted : list str) (req : NetworkRequest)
  : list str :=
  match NetworkRequest.request req with
  | Some request =>
    let formatted :=
      formatted ++ [u "🌐 " ++ Request.method request ++ u " " ++ Request.url request] in
    let formatted :=
      formatted ++ [u "   Status: " ++
                    match NetworkRequest.response req with
                    | Some response => str_of_int (Response.status response)
                    | None => u "Pending"
                    end] in
    match NetworkRequest.response_body req with
    | Some response_body =>
      if truthy response_body
      then formatted ++ [u "   Response: " ++ slice_to response_body 200 ++ u "..."]
      else formatted
    | None => formatted
    end
  | None => formatted
  end.

Definition format_requests (requests : list NetworkRequest) : str :=
  match requests with
  | [] => u "No requests captured"
  | _ :: _ => join [LF] (fold_left format_requests_step requests [])
  end.

(** The lines one record contributes to the network section. *)
Definition entry_lines (req : NetworkRequest) : list str :=
  format_requests_step [] req.

Definition format_message (msg : ConsoleMessage.t) : str :=
  u "🖥️ [" ++ upper (default (u "log") (ConsoleMessage.type msg)) ++ u "] "
  ++ default (ConsoleMessage.repr msg) (ConsoleMessage.text msg).

Definition format_console (messages : list ConsoleMessage.t) : str :=
  match messages with
  | [] => u "No console messages"
  | _ :: _ => join [LF] (map format_message messages)
  end.

(** The interactivity heuristic of [add_element_refs]. *)
Definition is_interactive (line : str) : bool :=
  existsb (fun keyword => contains keyword (lower line))
    [u "button"; u "link"; u "input"; u "textbox"].

Definition ref_tag (line : str) (ref_counter : Z) : str :=
  line ++ u " [ref=" ++ str_of_int ref_counter ++ u "]".

(** One iteration of the loop of [add_element_refs] over
    [enumerate(lines)]: the state is the list being updated in place and the
    counter. *)
Definition add_element_refs_step (st : list str * Z) (il : nat * str)
  : list str * Z :=
  let '(lines, ref_counter) := st in
  let '(i, line) := il in
  if is_interactive line
  then (<[i := ref_tag line ref_counter]> lines, ref_counter + 1)
  else (lines, ref_counter).

(** The loop of [add_element_refs] as a recursion on the lines still to
    visit: a matching line gets the tag of the current counter. *)
Fixpoint annotate (lines : list str) (ref_counter : Z) : list str :=
  match lines with
  | [] => []
  | line :: rest =>
    if is_interactive line
    then ref_tag line ref_counter :: annotate rest (ref_counter + 1)
    else line :: annotate rest ref_counter
  end.

(** The number of matching lines among the first [i]. *)
Definition matched_before (lines : list str) (i : nat) : Z :=
  Z.of_nat (length (filter (fun l => is_interactive l) (take i lines))).

Definition enumerate {A : Type} (l : list A) : list (nat * A) :=
  imap (fun i x => (i, x)) l.

Definition add_element_refs (snapshot : str) : str :=
  let lines := split LF snapshot in
  join [LF] (fst (fold_left add_element_refs_step (enumerate lines) (lines, 1))).

(** One iteration of the loop of [parse_refs]. *)
Definition parse_refs_step (refs : list RefEntry) (line : str) : list RefEntry :=
  if contains (u "[ref=") line then
    let ref_start := find (u "[ref=") line 0 + 5 in
    let ref_end := find (u "]") line ref_start in
    if ref_end >? ref_start then
      refs ++ [{| ref := slice line ref_start ref_end;
                  element := strip (slice_to line (find (u "[ref=") line 0)) |}]
    else refs
  else refs.

Definition parse_refs (snapshot : str) : list RefEntry :=
  fold_left parse_refs_step (split LF snapshot) [].

(** [all([parsed.scheme, parsed.netloc])]; an error of [urlparse] is not
    handled here and leaves the function. *)
Definition is_valid_url (url : str) : result bool :=
  match urlparse url with
  | inl e => Raise e
  | inr parsed => Ok (truthy (scheme parsed) && truthy (netloc parsed))
  end.

End Helpers.

(** ** The network and console recorders

    A callback is modelled as one step on the event it receives: the order
    of the events is the order in which the callbacks take effect. In
    [handle_response] the response is attached before the callback first
    suspends, so the steps of two callbacks cannot interleave around the
    test [not entry.response]. The body summary is set when the read of the
    body returns; the step sets it at once, so what is stated about the body
    of a record holds from the moment its read has returned. *)

Section Recorder.
Context `{Builtins}.

(** [entry.request == response.request] *)
Definition same_request (a : option Request.t) (b : Request.t) : bool :=
  match a with
  | Some q => Nat.eqb (Request.handle q) (Request.handle b)
  | None => false
  end.

(** [request.method.upper() in ["POST", "PUT", "PATCH"]] *)
Definition has_body (request : Request.t) : bool :=
  existsb (fun m => bool_decide (upper (Request.method request) = m))
    [u "POST"; u "PUT"; u "PATCH"].

(** [handle_request]. An error of [post_data] whose class derives from
    [Exception] is swallowed; any other leaves the callback before the
    record is appended. *)
Definition handle_request (request : Request.t)
    (network_requests : list NetworkRequest) : list NetworkRequest :=
  let append request_body :=
    network_requests ++
      [{| NetworkRequest.request := Some request;
          NetworkRequest.response := None;
          NetworkRequest.request_body := request_body;
          NetworkRequest.response_body := None |}] in
  if has_body request then
    match Request.post_data request with
    | inr body => append body
    | inl e => if is_Exception e then append None else network_requests
    end
  else append None.

(** The [try] block of [handle_response]: what is assigned to
    [entry.response_body], or the error raised on the way. *)
Definition read_body (response : Response.t) : result str :=
  let content_type := default (u "") (Response.headers response !! u "content-type") in
  match int (default (u "0") (Response.headers response !! u "content-length")) with
  | inl e => Raise e
  | inr content_length =>
    if should_show_content content_type content_length
    then Response.text response
    else Ok (u "[" ++ content_type ++ u " - " ++ str_of_int content_length
             ++ u " bytes]")
  end.

(** The body of the [if] in [handle_response]: the response is attached,
    then the body summary is set. *)
Definition attach (entry : NetworkRequest) (response : Response.t)
  : NetworkRequest :=
  let with_body body :=
    {| NetworkRequest.request := NetworkRequest.request entry;
       NetworkRequest.response := Some response;
       NetworkRequest.request_body := NetworkRequest.request_body entry;
       NetworkRequest.response_body := body |} in
  match read_body response with
  | inr body => with_body (Some body)
  | inl e =>
    if is_Exception e then with_body (Some (u "[Error reading response]"))
    else with_body (NetworkRequest.response_body entry)
  end.

(** [entry.request == response.request and not entry.response] *)
Definition awaits (entry : NetworkRequest) (response : Response.t) : bool :=
  same_request (NetworkRequest.request entry) (Response.request response)
  && negb (is_set (NetworkRequest.response entry)).

(** [handle_response]: the loop over [network_requests] with its [break]. *)
Fixpoint handle_response (response : Response.t)
    (network_requests : list NetworkRequest) : list NetworkRequest :=
  match network_requests with
  | [] => []
  | entry :: rest =>
    if awaits entry response
    then attach entry response :: rest
    else entry :: handle_response response rest
  end.

(** The events the page delivers to the three callbacks. *)
Inductive event : Type :=
| on_console (msg : ConsoleMessage.t)
| on_request (request : Request.t)
| on_response (response : Response.t).

(** The calls made on the browser driver. *)
Inductive op : Type :=
| Start | Launch | NewContext | NewPage
| SetDefaultTimeout (ms : Z)
| On (event : str)
| Goto (url : str)
| WaitForLoadState | WaitForSelector
| WaitForTimeout (ms : Z)
| AriaSnapshot | Title | ContextClose | BrowserClose | Stop.

(** The two lists the callbacks share with the orchestrator, and the calls
    made on the driver so far, oldest first. *)
Record State : Type := {
  calls : list op;
  network_requests : list NetworkRequest;
  console_messages : list ConsoleMessage.t
}.

Definition initial : State :=
  {| calls := []; network_requests := []; console_messages := [] |}.

(** The state in which the [try] statement of [website_snapshot] is entered:
    the driver was started and the browser launched. *)
Definition launched : State :=
  {| calls := [Start; Launch]; network_requests := []; console_messages := [] |}.

Definition deliver (st : State) (ev : event) : State :=
  match ev with
  | on_console msg =>
    {| calls := calls st;
       network_requests := network_requests st;
       console_messages := console_messages st ++ [msg] |}
  | on_request rq =>
    {| calls := calls st;
       network_requests := handle_request rq (network_requests st);
       console_messages := console_messages st |}
  | on_response rs =>
    {| calls := calls st;
       network_requests := handle_response rs (network_requests st);
       console_messages := console_messages st |}
  end.

(** The recorder run over a sequence of events. *)
Definition record (events : list event) (st : State) : State :=
  fold_left deliver events st.

(** No two records carry the same request handle. *)
Definition distinct_handles (nrs : list NetworkRequest) : Prop :=
  forall (i j : nat) (a b : NetworkRequest) (p q : Request.t),
    nrs !! i = Some a -> nrs !! j = Some b ->
    NetworkRequest.request a = Some p -> NetworkRequest.request b = Some q ->
    Request.handle p = Request.handle q -> i = j.

(** The console messages among the events, in order. *)
Definition logged (events : list event) : list ConsoleMessage.t :=
  omap (fun ev => match ev with on_console msg => Some msg | _ => None end)
       events.

(** The requests among the events, in order. *)
Definition requested (events : list event) : list Request.t :=
  omap (fun ev => match ev with on_request rq => Some rq | _ => None end)
       events.

(** Every error a body read of a request raises is of class [Exception]. *)
Definition catchable (events : list event) : Prop :=
  Forall (fun ev =>
            match ev with
            | on_request rq =>
              forall e : exn,
                Request.post_data rq = Raise e -> is_Exception e = true
            | _ => True
            end) events.

End Recorder.

(** ** The orchestrator *)

(** A computation that reads and updates the state and returns or raises. *)
Definition M (A : Type) : Type := State -> result A * State.

Definition ret {A : Type} (a : A) : M A := fun st => (Ok a, st).

Definition bind {A B : Type} (c : M A) (k : A -> M B) : M B :=
  fun st =>
    match c st with
    | (inl e, st') => (Raise e, st')
    | (inr a, st') => k a st'
    end.

Notation "x <- c ;; k" := (bind c (fun x => k))
  (at level 62, c at next level, right associativity).
Notation "c ;;; k" := (bind c (fun _ => k))
  (at level 62, right associativity).

Definition lift {A : Type} (r : result A) : M A := fun st => (r, st).

Definition get : M State := fun st => (Ok st, st).

(** A call on the driver is appended to [calls]. *)
Definition log (o : op) : M unit :=
  fun st =>
    (Ok tt, {| calls := calls st ++ [o];
               network_requests := network_requests st;
               console_messages := console_messages st |}).

(** [try: body / finally: final]: [final] runs on every path; when it raises,
    its error replaces the outcome of [body]. *)
Definition try_finally {A : Type} (body : M A) (final : M unit) : M A :=
  fun st =>
    let '(r, st1) := body st in
    match final st1 with
    | (inl e, st2) => (Raise e, st2)
    | (inr _, st2) => (r, st2)
    end.

(** [try: body / except Exception as error: handler error] *)
Definition try_except {A : Type} (body : M A) (handler : exn -> M A) : M A :=
  fun st =>
    match body st with
    | (inl e, st1) => if is_Exception e then handler e st1 else (Raise e, st1)
    | (inr a, st1) => (Ok a, st1)
    end.

(** [async with enter as p: body], whose exit runs on every path and
    suppresses nothing. *)
Definition async_with {A : Type} (enter exit : M unit) (body : M A) : M A :=
  enter ;;; try_finally body exit.

(** What an awaited call on the driver does: the events the page delivers
    to the callbacks while the orchestrator is suspended, and the outcome. *)
Record call (A : Type) : Type := {
  delivered : list event;
  outcome : result A
}.
Arguments delivered {A} _.
Arguments outcome {A} _.

(** The browser driver, as the orchestrator sees it: the behaviour of each
    call, in the order of the source. Property reads and the registration
    of callbacks return normally. *)
Record Driver : Type := {
  start : result unit;
  launch : result unit;
  new_context : result unit;
  new_page : result unit;
  goto : call unit;
  wait_for_load_state : call unit;
  wait_for_selector : call unit;
  wait_for_timeout : call unit;
  aria_snapshot : call str;
  title : call str;
  page_url : str;
  context_close : call unit;
  browser_close : result unit;
  stop : result unit
}.

Section Orchestrator.
Context `{Builtins}.

(** A call made before the callbacks are registered, or after the page is
    gone. *)
Definition invoke {A : Type} (o : op) (r : result A) : M A :=
  log o ;;; lift r.

(** An awaited call on the page: the callbacks run on what is delivered
    before the call returns or raises. *)
Definition await {A : Type} (o : op) (c : call A) : M A :=
  log o ;;;
  fun st => (outcome c, record (delivered c) st).

Definition text_content (t : str) : TextContent :=
  {| TextContent.type := u "text"; TextContent.text := t |}.

(** [CONFIG["timeout"]] *)
Definition CONFIG_timeout : Z := 15000.

(** The body of the [try] statement of [website_snapshot]. *)
Definition capture (w : Driver) (target_url : str) : M (list TextContent) :=
  invoke NewContext (new_context w) ;;;
  invoke NewPage (new_page w) ;;;
  log (SetDefaultTimeout CONFIG_timeout) ;;;
  log (On (u "console")) ;;;
  log (On (u "request")) ;;;
  log (On (u "response")) ;;;
  await (Goto target_url) (goto w) ;;;
  await WaitForLoadState (wait_for_load_state w) ;;;
  try_except (await WaitForSelector (wait_for_selector w))
             (fun _ => await (WaitForTimeout 3000) (wait_for_timeout w)) ;;;
  aria_snapshot <- await AriaSnapshot (aria_snapshot w) ;;
  let snapshot_with_refs := add_element_refs aria_snapshot in
  let element_refs := parse_refs snapshot_with_refs in
  title <- await Title (title w) ;;
  st <- get ;;
  let output_parts :=
    [u "🔍 " ++ title;
     u "📍 " ++ page_url w;
     u "";
     u "🎭 Accessibility Snapshot:";
     snapshot_with_refs]
    ++ [u ""; u "🌐 Network Requests:"; format_requests (network_requests st)]
    ++ [u ""; u "🖥️ Console:"; format_console (console_messages st)] in
  let summary_parts :=
    [str_of_int (Z.of_nat (length element_refs)) ++ u " elements";
     str_of_int (Z.of_nat (length
       (filter (fun r => is_set (NetworkRequest.request r)) (network_requests st))))
     ++ u " requests";
     str_of_int (Z.of_nat (length (console_messages st))) ++ u " console messages"] in
  await ContextClose (context_close w) ;;;
  ret [text_content (u "✅ Captured snapshot with " ++ join (u ", ") summary_parts);
       text_content (join [LF] output_parts);
       text_content (u "🎯 Element References:" ++ [LF]
                     ++ join [LF]
                          (map (fun r => u "[ref=" ++ ref r ++ u "]: " ++ element r)
                               element_refs))].

(** The calls the [try] block makes on the driver when nothing fails, in
    order; [fallback] tells whether the wait for an interactive element
    failed and the fixed delay was taken. *)
Definition capture_calls (target_url : str) (fallback : bool) : list op :=
  [NewContext; NewPage; SetDefaultTimeout CONFIG_timeout;
   On (u "console"); On (u "request"); On (u "response");
   Goto target_url; WaitForLoadState; WaitForSelector]
  ++ (if fallback then [WaitForTimeout 3000] else [])
  ++ [AriaSnapshot; Title; ContextClose].

(** The wait for an interactive element went through, by itself or by the
    fixed delay taken after its failure; [waited] is what the page delivered
    meanwhile. *)
Definition soft_wait (w : Driver) (waited : list event) : Prop :=
  (outcome (wait_for_selector w) = Ok tt
   /\ waited = delivered (wait_for_selector w))
  \/ (exists e : exn,
        outcome (wait_for_selector w) = Raise e
        /\ is_Exception e = true
        /\ outcome (wait_for_timeout w) = Ok tt
        /\ waited = delivered (wait_for_selector w)
                    ++ delivered (wait_for_timeout w)).

(** Whether a call returned. *)
Definition succeeded {A : Type} (r : result A) : bool :=
  match r with inr _ => true | inl _ => false end.

(** The error that leaves the [try] block, if any: the error of the first
    call that raises, where an error of class [Exception] raised by the wait
    for an interactive element does not count (the inner [except] swallows
    it and the fixed delay is awaited instead). *)
Definition first_error (w : Driver) : option exn :=
  let after_wait :=
    match outcome (aria_snapshot w) with
    | inl e => Some e
    | inr _ =>
      match outcome (title w) with
      | inl e => Some e
      | inr _ =>
        match outcome (context_close w) with
        | inl e => Some e
        | inr _ => None
        end
      end
    end in
  match new_context w with
  | inl e => Some e
  | inr _ =>
    match new_page w with
    | inl e => Some e
    | inr _ =>
      match outcome (goto w) with
      | inl e => Some e
      | inr _ =>
        match outcome (wait_for_load_state w) with
        | inl e => Some e
        | inr _ =>
          match outcome (wait_for_selector w) with
          | inl e =>
            if is_Exception e then
              match outcome (wait_for_timeout w) with
              | inl e' => Some e'
              | inr _ => after_wait
              end
            else Some e
          | inr _ => after_wait
          end
        end
      end
    end
  end.

(** The calls of the [try] block in the order of the source, each with
    whether the block goes on after it. The fixed delay is part of the
    sequence only when the wait for an interactive element raised an error
    of class [Exception]. *)
Definition capture_steps (w : Driver) (target_url : str) : list (op * bool) :=
  [(NewContext, succeeded (new_context w));
   (NewPage, succeeded (new_page w));
   (SetDefaultTimeout CONFIG_timeout, true);
   (On (u "console"), true); (On (u "request"), true); (On (u "response"), true);
   (Goto target_url, succeeded (outcome (goto w)));
   (WaitForLoadState, succeeded (outcome (wait_for_load_state w)))]
  ++ match outcome (wait_for_selector w) with
     | inr _ => [(WaitForSelector, true)]
     | inl e =>
       if is_Exception e
       then [(WaitForSelector, true);
             (WaitForTimeout 3000, succeeded (outcome (wait_for_timeout w)))]
       else [(WaitForSelector, false)]
     end
  ++ [(AriaSnapshot, succeeded (outcome (aria_snapshot w)));
      (Title, succeeded (outcome (title w)));
      (ContextClose, succeeded (outcome (context_close w)))].

(** The calls made: every call up to and including the first after which
    the block does not go on. *)
Fixpoint calls_until_failure (steps : list (op * bool)) : list op :=
  match steps with
  | [] => []
  | (o, goes_on) :: rest =>
    o :: (if goes_on then calls_until_failure rest else [])
  end.

Definition failed (error : exn) : M (list TextContent) :=
  ret [text_content (u "❌ Failed: " ++ message error)].

Definition website_snapshot (w : Driver) (target_url : str)
  : M (list TextContent) :=
  valid <- lift (is_valid_url target_url) ;;
  if negb valid then
    ret [text_content (u "Url must be valid, example: https://example.com")]
  else
    async_with (invoke Start (start w)) (invoke Stop (stop w))
      (invoke Launch (launch w) ;;;
       try_finally (try_except (capture w target_url) failed)
                   (invoke BrowserClose (browser_close w))).

(** How many times [browser.close()] was called. *)
Definition is_browser_close (o : op) : bool :=
  match o with BrowserClose => true | _ => false end.

Definition browser_closes (st : State) : nat :=
  length (filter is_browser_close (calls st)).

(** A computation that only adds calls other than [browser.close()]. *)
Definition no_close {A : Type} (c : M A) : Prop :=
  forall (st st' : State) (r : result A),
    c st = (r, st') ->
    exists tr : list op,
      calls st' = calls st ++ tr /\ filter is_browser_close tr = [].

End Orchestrator.

(** ** A reference instance of the built-ins

    The instance at which examples are evaluated. It is CPython's behaviour
    on ASCII text: [lower] and [upper] fold the letters A-Z and a-z only,
    [int] reads an optionally signed run of ASCII digits, and [urlparse]
    follows [urllib.parse.urlsplit] up to the network location. The
    validation of a bracketed host and the normalisation check of a
    non-ASCII network location, which can only raise more errors, are
    arguments of [urlsplit]. *)

Module CPython.

Definition ascii_lower (s : str) : str :=
  map (fun c => if (65 <=? c)%N && (c <=? 90)%N then (c + 32)%N else c) s.

Definition ascii_upper (s : str) : str :=
  map (fun c => if (97 <=? c)%N && (c <=? 122)%N then (c - 32)%N else c) s.

Definition ValueError (msg : str) : exn :=
  {| is_Exception := true; message := msg |}.

Definition is_digit (c : char) : bool := (48 <=? c)%N && (c <=? 57)%N.

(** The value of a run of decimal digits, read left to right. *)
Definition digits_value (ds : str) : Z :=
  fold_left (fun acc c => 10 * acc + (Z.of_N c - 48)) ds 0.

Definition int_of_str (s : str) : result Z :=
  let invalid :=
    Raise (ValueError (u "invalid literal for int() with base 10: '" ++ s ++ u "'")) in
  let body := strip s in
  let '(sign, ds) :=
    match body with
    | 45%N :: ds => (-1, ds)
    | 43%N :: ds => (1, ds)
    | _ => (1, body)
    end in
  if truthy ds && forallb is_digit ds then Ok (sign * digits_value ds) else invalid.

Definition scheme_chars : str :=
  u "abcdefghijklmnopqrstuvwxyzABCDEFGHIJKLMNOPQRSTUVWXYZ0123456789+-.".

Definition is_ascii_alpha (c : char) : bool :=
  ((65 <=? c) && (c <=? 90) || (97 <=? c) && (c <=? 122))%N.

Definition char_in (c : char) (s : str) : bool := existsb (N.eqb c) s.

(** [url.lstrip(_WHATWG_C0_CONTROL_OR_SPACE)] *)
Fixpoint lstrip_c0 (url : str) : str :=
  match url with
  | [] => []
  | c :: url' => if (c <=? 0x20)%N then lstrip_c0 url' else url
  end.

(** [_splitnetloc(url, 2)]: the position of the first of [/], [?], [#] at or
    after index 2, the length of [url] when there is none. *)
Definition netloc_end (url : str) : Z :=
  fold_left
    (fun delim c =>
       let wdelim := find [c] url 2 in
       if wdelim >=? 0 then Z.min delim wdelim else delim)
    (u "/?#") (Z.of_nat (length url)).

Definition urlsplit (check_bracketed_host checknetloc : str -> option exn)
    (url : str) : result ParseResult :=
  let url := lstrip_c0 url in
  let url := filter (fun c => negb (char_in c [9; 13; 10]%N)) url in
  let i := find (u ":") url 0 in
  let '(scheme, url) :=
    if (i >? 0) && forallb is_ascii_alpha (take 1 url)
       && forallb (fun c => char_in c scheme_chars) (slice_to url i)
    then (ascii_lower (slice_to url i), slice url (i + 1) (Z.of_nat (length url)))
    else (u "", url) in
  if bool_decide (slice_to url 2 = u "//") then
    let delim := netloc_end url in
    let netloc := slice url 2 delim in
    let lb := char_in 91%N netloc in
    let rb := char_in 93%N netloc in
    if lb && negb rb || rb && negb lb then Raise (ValueError (u "Invalid IPv6 URL"))
    else
      let bracketed :=
        if lb && rb
        then check_bracketed_host
               (slice netloc (find (u "[") netloc 0 + 1)
                             (find (u "]") netloc (find (u "[") netloc 0 + 1)))
        else None in
      match bracketed, checknetloc netloc with
      | Some e, _ => Raise e
      | None, Some e => Raise e
      | None, None => Ok {| scheme := scheme; netloc := netloc |}
      end
  else
    match checknetloc (u "") with
    | Some e => Raise e
    | None => Ok {| scheme := scheme; netloc := u "" |}
    end.

Definition builtins : Builtins :=
  {| lower := ascii_lower;
     upper := ascii_upper;
     int := int_of_str;
     urlparse := urlsplit (fun _ => None) (fun _ => None) |}.

End CPython.

(** ** Sample inputs

    Concrete requests, responses, records and drivers at which the
    properties below are evaluated. *)

Module Sample.

Definition get_data : Request.t :=
  {| Request.handle := 1%nat;
     Request.method := u "GET";
     Request.url := u "https://api.example.com/data";
     Request.post_data := Ok None |}.

Definition headers (content_type content_length : str) : gmap str str :=
  <[u "content-type" := content_type]>
    (<[u "content-length" := content_length]> ∅).

(** The response of the test suite: a JSON body of declared length 100. *)
Definition ok_json : Response.t :=
  {| Response.status := 200;
     Response.request := get_data;
     Response.headers := headers (u "application/json") (u "100");
     Response.text := Ok (u "{'status': 'ok'}") |}.

Definition pending : NetworkRequest :=
  {| NetworkRequest.request := Some get_data;
     NetworkRequest.response := None;
     NetworkRequest.request_body := None;
     NetworkRequest.response_body := None |}.

Definition with_body (body : option str) : NetworkRequest :=
  {| NetworkRequest.request := Some get_data;
     NetworkRequest.response := Some ok_json;
     NetworkRequest.request_body := None;
     NetworkRequest.response_body := body |}.

(** A redirect: the driver has no body for it and the read raises. *)
Definition redirect : Response.t :=
  {| Response.status := 301;
     Response.request := get_data;
     Response.headers := headers (u "text/html") (u "0");
     Response.text :=
       Raise {| is_Exception := true;
                message := u "Response body is unavailable for redirect responses" |} |}.

(** A response whose declared length is not a number. *)
Definition garbled : Response.t :=
  {| Response.status := 200;
     Response.request := get_data;
     Response.headers := headers (u "image/png") (u "abc");
     Response.text := Ok (u "x") |}.

(** A body summary of 250 characters. *)
Definition long_body : str := repeat 120%N 250.

(** The accessibility snapshot of the test suite: a heading and four
    interactive lines, with a final newline. *)
Definition page_snapshot : str :=
  join [LF] [u "heading Example Page"; u "button Submit ";
             u "link Home"; u "textbox Email"; u "button Login"; u ""].

Definition quiet {A : Type} (a : A) : call A :=
  {| delivered := []; outcome := Ok a |}.

(** A driver whose page loads without events; [launch] and [new_context]
    behave as given. *)
Definition driver (launch new_context : result unit) : Driver :=
  {| start := Ok tt;
     launch := launch;
     new_context := new_context;
     new_page := Ok tt;
     goto := quiet tt;
     wait_for_load_state := quiet tt;
     wait_for_selector := quiet tt;
     wait_for_timeout := quiet tt;
     aria_snapshot := quiet page_snapshot;
     title := quiet (u "Example Page");
     page_url := u "https://example.com/page";
     context_close := quiet tt;
     browser_close := Ok tt;
     stop := Ok tt |}.

Definition Exception (msg : str) : exn :=
  {| is_Exception := true; message := msg |}.

Definition page : Driver := driver (Ok tt) (Ok tt).

(** The failure of the test suite: context creation raises after the
    browser was launched. *)
Definition context_fails : Driver :=
  driver (Ok tt) (Raise (Exception (u "Browser context creation failed"))).

Definition loaded : ConsoleMessage.t :=
  {| ConsoleMessage.type := Some (u "log");
     ConsoleMessage.text := Some (u "Page loaded successfully");
     ConsoleMessage.repr := u "<ConsoleMessage>" |}.

(** A page whose navigation delivers one request, its response and one
    console message. *)
Definition busy_page : Driver :=
  {| start := Ok tt;
     launch := Ok tt;
     new_context := Ok tt;
     new_page := Ok tt;
     goto := {| delivered := [on_request get_data; on_response ok_json;
                              on_console loaded];
                outcome := Ok tt |};
     wait_for_load_state := quiet tt;
     wait_for_selector := quiet tt;
     wait_for_timeout := quiet tt;
     aria_snapshot := quiet (u "button Click Me");
     title := quiet (u "Test Page");
     page_url := u "https://example.com";
     context_close := quiet tt;
     browser_close := Ok tt;
     stop := Ok tt |}.

(** The task is cancelled while the context is created: the error is not
    of class [Exception]. *)
Definition cancelled : Driver :=
  driver (Ok tt)
         (Raise {| is_Exception := false; message := u "CancelledError" |}).

(** The page loads, but closing the browser raises. *)
Definition close_fails : Driver :=
  {| start := Ok tt;
     launch := Ok tt;
     new_context := Ok tt;
     new_page := Ok tt;
     goto := quiet tt;
     wait_for_load_state := quiet tt;
     wait_for_selector := quiet tt;
     wait_for_timeout := quiet tt;
     aria_snapshot := quiet page_snapshot;
     title := quiet (u "Example Page");
     page_url := u "https://example.com/page";
     context_close := quiet tt;
     browser_close := Raise (Exception (u "Target closed"));
     stop := Ok tt |}.

(** A response without headers. *)
Definition bare : Response.t :=
  {| Response.status := 204;
     Response.request := get_data;
     Response.headers := ∅;
     Response.text := Ok (u "") |}.

(** A record that has no request handle. *)
Definition orphan : NetworkRequest :=
  {| NetworkRequest.request := None;
     NetworkRequest.response := None;
     NetworkRequest.request_body := None;
     NetworkRequest.response_body := Some (u "body") |}.

(** The page shows no interactive element: the wait for one times out, and
    nothing else fails. *)
Definition no_marker : Driver :=
  {| start := Ok tt;
     launch := Ok tt;
     new_context := Ok tt;
     new_page := Ok tt;
     goto := quiet tt;
     wait_for_load_state := quiet tt;
     wait_for_selector :=
       {| delivered := [];
          outcome := Raise (Exception (u "Timeout 10000ms exceeded.")) |};
     wait_for_timeout := quiet tt;
     aria_snapshot := quiet page_snapshot;
     title := quiet (u "Example Page");
     page_url := u "https://example.com/page";
     context_close := quiet tt;
     browser_close := Ok tt;
     stop := Ok tt |}.

(** A form submission, with the body its read returns. *)
Definition post_form : Request.t :=
  {| Request.handle := 2%nat;
     Request.method := u "post";
     Request.url := u "https://api.example.com/form";
     Request.post_data := Ok (Some (u "name=a")) |}.

(** The browser executable is missing: the launch itself raises. *)
Definition launch_fails : Driver :=
  driver (Raise (Exception (u "Executable doesn't exist"))) (Ok tt).

End Sample.

(** * Properties *)

(** ** Facts about the string operations *)

Lemma slice_to_take (s : str) (n : Z) :
  0 <= n -> slice_to s n = take (Z.to_nat n) s.
Proof.
  intros Hn. unfold slice_to, slice, clamp.
  change (0 <? 0) with false. cbv iota.
  rewrite (Z.min_l 0) by lia. change (Z.to_nat 0) with 0%nat. rewrite drop_0.
  destruct (Z.ltb_spec n 0); [lia|]. rewrite Z.sub_0_r.
  destruct (Z.le_ge_cases n (Z.of_nat (length s))) as [Hle|Hge].
  - rewrite Z.min_l by lia. reflexivity.
  - rewrite Z.min_r by lia. rewrite Nat2Z.id.
    rewrite !take_ge; [reflexivity|lia|lia].
Qed.

(** ** Facts about [split] and [join] *)

Section Lines.

Lemma split_nonempty (sep : N) (s : list N) : split sep s <> [].
Proof.
  destruct s as [|c s]; cbn; [done|].
  destruct (c =? sep)%N; [done|]. by destruct (split sep s).
Qed.

Lemma split_no_sep (sep : N) (s : list N) :
  Forall (no_char sep) (split sep s).
Proof.
  induction s as [|c s IH]; cbn.
  - repeat constructor.
  - destruct (N.eqb_spec c sep) as [->|Hne].
    + constructor; [constructor|done].
    + destruct (split sep s) as [|w ws]; [repeat constructor; done|].
      inversion IH; subst. constructor; [by constructor|done].
Qed.

Lemma split_app_line (sep : N) (line rest : list N) :
  no_char sep line ->
  split sep (line ++ sep :: rest) = line :: split sep rest.
Proof.
  induction 1 as [|c line Hc _ IH]; cbn.
  - by rewrite N.eqb_refl.
  - destruct (N.eqb_spec c sep) as [->|_]; [done|]. by rewrite IH.
Qed.

Lemma split_line (sep : N) (line : list N) :
  no_char sep line -> split sep line = [line].
Proof.
  induction 1 as [|c line Hc _ IH]; cbn; [done|].
  destruct (N.eqb_spec c sep) as [->|_]; [done|]. by rewrite IH.
Qed.

Lemma split_join (sep : N) (lines : list (list N)) :
  lines <> [] -> Forall (no_char sep) lines ->
  split sep (join [sep] lines) = lines.
Proof.
  intros Hne Hall. induction Hall as [|line lines Hline Hall IH]; [done|].
  destruct lines as [|next lines].
  - cbn. by apply split_line.
  - change (join [sep] (line :: next :: lines))
      with (line ++ sep :: join [sep] (next :: lines)).
    rewrite split_app_line by done. by rewrite IH.
Qed.

End Lines.

(** ** Facts about [startswith], [index], [find] and slices *)

Section Search.

Lemma startswith_app (sub rest : list N) : startswith sub (sub ++ rest) = true.
Proof. induction sub as [|a sub IH]; cbn; [done|]. by rewrite N.eqb_refl. Qed.

(** A character that does not occur in [sub] stops every match of [sub]
    that would run over it. *)
Lemma startswith_absent (sub l r : list N) (c : N) :
  no_char c sub ->
  startswith sub (l ++ c :: r) = startswith sub l.
Proof.
  intros Hsub. revert l. induction Hsub as [|a sub Ha _ IH]; intros l; [done|].
  destruct l as [|b l]; cbn.
  - destruct (N.eqb_spec a c); [done|done].
  - by rewrite IH.
Qed.

Lemma index_absent (sub l r : list N) (c : N) :
  no_char c sub -> index sub l = None ->
  index sub (l ++ c :: r) = (fun i => (length l + 1 + i)%nat) <$> index sub r.
Proof.
  intros Hsub. induction l as [|b l IH]; intros Hnone.
  - pose proof (startswith_absent sub [] r c Hsub) as Hs.
    cbn [app index length] in *. rewrite Hs.
    destruct (startswith sub []); [done|].
    destruct (index sub r); reflexivity.
  - pose proof (startswith_absent sub (b :: l) r c Hsub) as Hs.
    cbn [app index length] in *. rewrite Hs.
    destruct (startswith sub (b :: l)); [done|].
    destruct (index sub l) as [i|] eqn:Hi; [done|].
    rewrite IH by done. destruct (index sub r); reflexivity.
Qed.

Lemma index_here (sub rest : list N) : index sub (sub ++ rest) = Some 0%nat.
Proof.
  destruct (sub ++ rest) as [|c s] eqn:E; cbn.
  - apply app_eq_nil in E as [-> _]. done.
  - rewrite <- E, startswith_app. done.
Qed.

Lemma index_char (c : N) (l r : list N) :
  no_char c l -> index [c] (l ++ c :: r) = Some (length l).
Proof.
  induction 1 as [|b l Hb _ IH]; cbn.
  - by rewrite N.eqb_refl.
  - destruct (N.eqb_spec c b) as [->|_]; [done|]. cbn.
    cbn in IH. by rewrite IH.
Qed.

Lemma find_from (sub s : list N) (start : nat) (i : nat) :
  (start <= length s)%nat ->
  index sub (drop start s) = Some i ->
  find sub s (Z.of_nat start) = Z.of_nat start + Z.of_nat i.
Proof.
  intros Hle Hi. unfold find.
  destruct (Z.ltb_spec (Z.of_nat start) 0); [lia|].
  destruct (Z.ltb_spec (Z.of_nat (length s)) (Z.of_nat start)); [lia|].
  by rewrite Nat2Z.id, Hi.
Qed.

Lemma slice_middle (a b c : list N) :
  slice (a ++ b ++ c) (Z.of_nat (length a)) (Z.of_nat (length a + length b)) = b.
Proof.
  unfold slice, clamp. rewrite !length_app.
  destruct (Z.ltb_spec (Z.of_nat (length a)) 0); [lia|].
  destruct (Z.ltb_spec (Z.of_nat (length a + length b)) 0); [lia|].
  rewrite !Z.min_l by lia.
  replace (Z.to_nat (Z.of_nat (length a + length b) - Z.of_nat (length a)))
    with (length b) by lia.
  rewrite Nat2Z.id, drop_app_length, take_app_length. done.
Qed.

Lemma slice_to_prefix (a b : list N) :
  slice_to (a ++ b) (Z.of_nat (length a)) = a.
Proof.
  rewrite slice_to_take by lia. by rewrite Nat2Z.id, take_app_length.
Qed.

End Search.

(** ** Facts about [strip] and [str_of_int] *)

Section Strip.

Lemma strip_trailing_space (s : list N) : strip (s ++ u " ") = strip s.
Proof.
  unfold strip, rstrip. change (u " ") with [32%N].
  by rewrite rev_app_distr.
Qed.

Lemma digits_range (d : Decimal.uint) :
  Forall (fun c => (48 <= c <= 57)%N) (digits d).
Proof. induction d; cbn; constructor; try done; lia. Qed.

Lemma str_of_int_range (z : Z) :
  Forall (fun c => (45 <= c <= 57)%N) (str_of_int z).
Proof.
  assert (Hd : forall d, Forall (fun c => (45 <= c <= 57)%N) (digits d)).
  { intros d. eapply Forall_impl; [apply digits_range|]. cbn. lia. }
  destruct z; cbn; [repeat constructor; lia|apply Hd|].
  constructor; [lia|apply Hd].
Qed.

Lemma str_of_int_no_char (z : Z) (c : N) :
  (c < 45 \/ 57 < c)%N -> no_char c (str_of_int z).
Proof.
  intros Hc. eapply Forall_impl; [apply str_of_int_range|]. cbn. lia.
Qed.

Lemma str_of_int_nonempty (z : Z) : str_of_int z <> [].
Proof.
  assert (Hd : forall p, digits (Pos.to_uint p) <> []).
  { intros p Hnil. apply (DecimalPos.Unsigned.to_uint_nonnil p).
    by destruct (Pos.to_uint p). }
  destruct z; cbn; [done|apply Hd|done].
Qed.

End Strip.

(** ** The formatted network and console sections *)

Section Format.
Context `{Builtins}.

Lemma format_requests_step_app (formatted : list str) (req : NetworkRequest) :
  format_requests_step formatted req = formatted ++ entry_lines req.
Proof.
  unfold entry_lines, format_requests_step.
  destruct (NetworkRequest.request req); [|by rewrite app_nil_r].
  destruct (NetworkRequest.response_body req) as [b|]; [destruct (truthy b)|];
    cbn [app]; rewrite <- ?app_assoc; reflexivity.
Qed.

Lemma format_requests_loop (requests : list NetworkRequest) (formatted : list str) :
  fold_left format_requests_step requests formatted
  = formatted ++ concat (map entry_lines requests).
Proof.
  revert formatted. induction requests as [|req requests IH]; intros formatted.
  - cbn. by rewrite app_nil_r.
  - cbn [fold_left map concat]. rewrite IH, format_requests_step_app.
    by rewrite <- app_assoc.
Qed.

Lemma format_requests_lines (before after : list NetworkRequest) (req : NetworkRequest) :
  format_requests (before ++ req :: after)
  = join [LF] (concat (map entry_lines before) ++ entry_lines req
               ++ concat (map entry_lines after)).
Proof.
  unfold format_requests.
  destruct (before ++ req :: after) eqn:E; [by destruct before|].
  rewrite <- E, format_requests_loop. cbn [app].
  by rewrite map_app, concat_app.
Qed.

End Format.

Section FormatClaims.
Context `{Builtins}.

(** C9: with no network record the network section is the text
    "No requests captured", and with no console record the console section
    is the text "No console messages". *)
Theorem empty_sections :
  format_requests [] = u "No requests captured"
  /\ format_console [] = u "No console messages".
Proof. split; reflexivity. Qed.

(** C7: in the network section, a record with a request handle and no
    response contributes the line "   Status: Pending" after its request
    line, and a record whose body summary is longer than 200 characters
    contributes a "Response:" line made of the first 200 characters of the
    summary followed by "...". The section is the lines of the records,
    in order, joined by newlines. *)
Theorem format_requests_pending_and_truncated
    (before after : list NetworkRequest) (req : NetworkRequest)
    (request : Request.t) :
  NetworkRequest.request req = Some request ->
  format_requests (before ++ req :: after)
  = join [LF] (concat (map entry_lines before) ++ entry_lines req
               ++ concat (map entry_lines after))
  /\ entry_lines req !! 0%nat
     = Some (u "🌐 " ++ Request.method request ++ u " " ++ Request.url request)
  /\ (NetworkRequest.response req = None ->
      entry_lines req !! 1%nat = Some (u "   Status: Pending"))
  /\ (forall body : str,
        NetworkRequest.response_body req = Some body ->
        (200 < length body)%nat ->
        entry_lines req
        = [u "🌐 " ++ Request.method request ++ u " " ++ Request.url request;
           u "   Status: " ++
             match NetworkRequest.response req with
             | Some response => str_of_int (Response.status response)
             | None => u "Pending"
             end;
           u "   Response: " ++ take 200 body ++ u "..."]).
Proof.
  intros Hreq. split; [apply format_requests_lines|].
  unfold entry_lines, format_requests_step. rewrite Hreq.
  repeat split.
  - destruct (NetworkRequest.response_body req) as [b|]; [destruct (truthy b)|];
      reflexivity.
  - intros ->.
    destruct (NetworkRequest.response_body req) as [b|]; [destruct (truthy b)|];
      reflexivity.
  - intros body -> Hlen. destruct body as [|c body]; [cbn in Hlen; lia|].
    cbn [truthy]. rewrite slice_to_take by lia. reflexivity.
Qed.

(** C10: a record whose body summary is the empty string contributes no
    "Response:" line: its lines are the request line and the status line of
    the attached response, and the section is the same as if the record had
    no body summary. *)
Theorem format_requests_empty_body
    (before after : list NetworkRequest) (req : NetworkRequest)
    (request : Request.t) (response : Response.t) :
  NetworkRequest.request req = Some request ->
  NetworkRequest.response req = Some response ->
  NetworkRequest.response_body req = Some [] ->
  entry_lines req
  = [u "🌐 " ++ Request.method request ++ u " " ++ Request.url request;
     u "   Status: " ++ str_of_int (Response.status response)]
  /\ format_requests (before ++ req :: after)
     = format_requests
         (before ++
          {| NetworkRequest.request := NetworkRequest.request req;
             NetworkRequest.response := NetworkRequest.response req;
             NetworkRequest.request_body := NetworkRequest.request_body req;
             NetworkRequest.response_body := None |} :: after).
Proof.
  intros Hreq Hresp Hbody.
  assert (Hl : forall body,
    entry_lines
      {| NetworkRequest.request := NetworkRequest.request req;
         NetworkRequest.response := NetworkRequest.response req;
         NetworkRequest.request_body := NetworkRequest.request_body req;
         NetworkRequest.response_body := body |}
    = match body with
      | Some (c :: b) =>
        [u "🌐 " ++ Request.method request ++ u " " ++ Request.url request;
         u "   Status: " ++ str_of_int (Response.status response);
         u "   Response: " ++ slice_to (c :: b) 200 ++ u "..."]
      | _ =>
        [u "🌐 " ++ Request.method request ++ u " " ++ Request.url request;
         u "   Status: " ++ str_of_int (Response.status response)]
      end).
  { intros body. unfold entry_lines, format_requests_step.
    cbn [NetworkRequest.request NetworkRequest.response
         NetworkRequest.response_body].
    rewrite Hreq, Hresp. by destruct body as [[|c b]|]. }
  assert (Hsame : entry_lines req
    = [u "🌐 " ++ Request.method request ++ u " " ++ Request.url request;
       u "   Status: " ++ str_of_int (Response.status response)]).
  { specialize (Hl (Some [])). destruct req; cbn in *. by subst. }
  split; [exact Hsame|].
  rewrite !format_requests_lines, Hsame. by rewrite (Hl None).
Qed.

End FormatClaims.

Lemma format_requests_pending_and_truncated_witness :
  NetworkRequest.request (Sample.with_body (Some Sample.long_body))
  = Some Sample.get_data
  /\ entry_lines Sample.pending !! 1%nat
     = Some (u "   Status: Pending")
  /\ entry_lines (Sample.with_body (Some Sample.long_body))
       !! 2%nat
     = Some (u "   Response: " ++ repeat 120%N 200 ++ u "...").
Proof.
  split; [reflexivity|]. split.
  - apply (format_requests_pending_and_truncated
             [] [] Sample.pending Sample.get_data); reflexivity.
  - destruct (format_requests_pending_and_truncated
                [Sample.pending] [] (Sample.with_body (Some Sample.long_body))
                Sample.get_data eq_refl) as (_ & _ & _ & Hlong).
    rewrite (Hlong Sample.long_body eq_refl); [reflexivity|].
    vm_compute. lia.
Defined.

Lemma format_requests_empty_body_witness :
  NetworkRequest.response_body (Sample.with_body (Some [])) = Some []
  /\ format_requests [Sample.with_body (Some [])]
     = u "🌐 GET https://api.example.com/data" ++ [LF] ++ u "   Status: 200".
Proof.
  split; [reflexivity|].
  destruct (format_requests_empty_body [] []
              (Sample.with_body (Some [])) Sample.get_data Sample.ok_json
              eq_refl eq_refl eq_refl) as [_ Hsame].
  cbn [app] in Hsame. rewrite Hsame. vm_compute. reflexivity.
Defined.

(** ** The network recorder *)

Section RecorderFacts.
Context `{Builtins}.

Lemma attach_response (entry : NetworkRequest) (response : Response.t) :
  NetworkRequest.response (attach entry response) = Some response
  /\ NetworkRequest.request (attach entry response) = NetworkRequest.request entry
  /\ NetworkRequest.request_body (attach entry response)
     = NetworkRequest.request_body entry.
Proof.
  unfold attach. destruct (read_body response) as [e|body];
    [destruct (is_Exception e)|]; auto.
Qed.

(** A failure of the [try] block that [except Exception] catches leaves the
    fixed placeholder. *)
Lemma attach_error (entry : NetworkRequest) (response : Response.t) (e : exn) :
  read_body response = Raise e -> is_Exception e = true ->
  NetworkRequest.response_body (attach entry response)
  = Some (u "[Error reading response]").
Proof. unfold attach. intros -> . unfold Raise. by intros ->. Qed.

Lemma handle_response_first (response : Response.t) (nrs : list NetworkRequest) :
  (exists (i : nat) (entry : NetworkRequest),
      nrs !! i = Some entry
      /\ awaits entry response = true
      /\ (forall (j : nat) (earlier : NetworkRequest),
            (j < i)%nat -> nrs !! j = Some earlier ->
            awaits earlier response = false)
      /\ handle_response response nrs = <[i := attach entry response]> nrs)
  \/ ((forall entry : NetworkRequest, entry ∈ nrs -> awaits entry response = false)
      /\ handle_response response nrs = nrs).
Proof.
  induction nrs as [|entry rest IH].
  - right. split; [|reflexivity]. intros entry Hin. by apply elem_of_nil in Hin.
  - cbn [handle_response]. destruct (awaits entry response) eqn:Haw.
    + left. exists 0%nat, entry. repeat split; auto. intros j ? Hj. lia.
    + destruct IH as [(i & found & Hi & Hfound & Hearlier & Heq)|[Hnone Heq]].
      * left. exists (S i), found. repeat split; auto.
        -- intros [|j] earlier Hj Hlook; cbn in Hlook.
           ++ by inversion Hlook; subst.
           ++ apply (Hearlier j); [lia|done].
        -- cbn. by rewrite Heq.
      * right. split; [|by rewrite Heq].
        intros e Hin. apply elem_of_cons in Hin as [->|Hin]; auto.
Qed.

Lemma handle_response_keeps (response : Response.t) (nrs : list NetworkRequest)
    (i : nat) (entry : NetworkRequest) (attached : Response.t) :
  nrs !! i = Some entry ->
  NetworkRequest.response entry = Some attached ->
  handle_response response nrs !! i = Some entry.
Proof.
  revert i. induction nrs as [|first rest IH]; intros i Hi Hresp; [done|].
  cbn [handle_response]. destruct (awaits first response) eqn:Haw.
  - destruct i as [|i]; [|done]. cbn in Hi. inversion Hi; subst.
    unfold awaits in Haw. rewrite Hresp in Haw. cbn in Haw.
    by rewrite andb_false_r in Haw.
  - destruct i as [|i]; [done|]. cbn. by apply IH.
Qed.

Lemma handle_request_keeps (request : Request.t) (nrs : list NetworkRequest)
    (i : nat) (entry : NetworkRequest) :
  nrs !! i = Some entry -> handle_request request nrs !! i = Some entry.
Proof.
  intros Hi. unfold handle_request.
  destruct (has_body request);
    [destruct (Request.post_data request) as [e|body];
     [destruct (is_Exception e)|]|];
    try done; by apply lookup_app_l_Some.
Qed.

Lemma record_keeps (events : list event) (st : State)
    (i : nat) (entry : NetworkRequest) (attached : Response.t) :
  network_requests st !! i = Some entry ->
  NetworkRequest.response entry = Some attached ->
  network_requests (record events st) !! i = Some entry.
Proof.
  revert st. induction events as [|ev events IH]; intros st Hi Hresp; [done|].
  cbn [record fold_left]. apply IH; [|done].
  destruct ev; cbn [deliver network_requests]; auto.
  - by apply handle_request_keeps.
  - by apply (handle_response_keeps _ _ _ _ attached).
Qed.

(** C4: a response is attached to the first record, in arrival order, whose
    request handle is the response's request and which has no response yet,
    and to no other; when there is no such record nothing is recorded; and a
    record that has a response keeps it, unchanged, through every later
    sequence of request, response and console events, so at most one
    response ever attaches to a record. *)
Theorem one_response_per_record (response : Response.t)
    (nrs : list NetworkRequest) :
  ((exists (i : nat) (entry : NetworkRequest),
       nrs !! i = Some entry
       /\ awaits entry response = true
       /\ (forall (j : nat) (earlier : NetworkRequest),
             (j < i)%nat -> nrs !! j = Some earlier ->
             awaits earlier response = false)
       /\ handle_response response nrs = <[i := attach entry response]> nrs
       /\ NetworkRequest.response (attach entry response) = Some response)
   \/ ((forall entry : NetworkRequest,
          entry ∈ nrs -> awaits entry response = false)
       /\ handle_response response nrs = nrs))
  /\ (forall (events : list event) (st : State) (i : nat)
             (entry : NetworkRequest) (attached : Response.t),
        network_requests st !! i = Some entry ->
        NetworkRequest.response entry = Some attached ->
        network_requests (record events st) !! i = Some entry).
Proof.
  split.
  - destruct (handle_response_first response nrs)
      as [(i & entry & Hi & Haw & Hearlier & Heq)|Hnone]; [left|by right].
    exists i, entry. repeat split; auto. apply attach_response.
  - apply record_keeps.
Qed.

Lemma should_show_content_spec (content_type : str) (content_length : Z) :
  should_show_content content_type content_length = true
  <-> content_length <= 50000
      /\ (startswith (u "application/json") content_type = true
          \/ startswith (u "text/") content_type = true
          \/ startswith (u "application/xml") content_type = true).
Proof.
  unfold should_show_content. cbn [existsb]. rewrite orb_false_r. split.
  - intros Hshow. apply andb_prop in Hshow as [Hle Hany].
    apply Z.leb_le in Hle. split; [exact Hle|].
    apply orb_prop in Hany as [Hjson|Hany]; [by left|].
    apply orb_prop in Hany as [Htext|Hxml]; [right; by left|right; by right].
  - intros [Hle Hany]. apply andb_true_intro. split; [by apply Z.leb_le|].
    destruct Hany as [-> | [-> | ->]]; by rewrite ?orb_true_r.
Qed.

(** C2, amended: when the declared length of a response (the header
    content-length, "0" when missing) reads as an integer, the body captured
    for it is what the body read gives, the full decoded text when the read
    succeeds, exactly when the length is at most 50000 and the content-type
    starts with "application/json", "text/" or "application/xml", and
    otherwise the placeholder naming the content-type and the length. In
    particular "application/json" with length 100 is captured in full,
    "image/png" with length 10 gives the placeholder, and so does every
    length above 50000. When the header does not read as an integer, or the
    body read raises, with an error of class [Exception], the captured body
    is the fixed text "[Error reading response]". *)
Theorem body_inclusion_policy (entry : NetworkRequest) (response : Response.t) :
  let content_type :=
    default (u "") (Response.headers response !! u "content-type") in
  let declared :=
    default (u "0") (Response.headers response !! u "content-length") in
  (forall content_length : Z,
      int declared = Ok content_length ->
      (should_show_content content_type content_length = true
       <-> content_length <= 50000
           /\ (startswith (u "application/json") content_type = true
               \/ startswith (u "text/") content_type = true
               \/ startswith (u "application/xml") content_type = true))
      /\ (should_show_content content_type content_length = true ->
          forall body : str,
            Response.text response = Ok body ->
            NetworkRequest.response_body (attach entry response) = Some body)
      /\ (should_show_content content_type content_length = true ->
          forall e : exn,
            Response.text response = Raise e ->
            is_Exception e = true ->
            NetworkRequest.response_body (attach entry response)
            = Some (u "[Error reading response]"))
      /\ (should_show_content content_type content_length = false ->
          NetworkRequest.response_body (attach entry response)
          = Some (u "[" ++ content_type ++ u " - " ++ str_of_int content_length
                  ++ u " bytes]")))
  /\ (forall e : exn,
        int declared = Raise e ->
        is_Exception e = true ->
        NetworkRequest.response_body (attach entry response)
        = Some (u "[Error reading response]"))
  /\ should_show_content (u "application/json") 100 = true
  /\ should_show_content (u "image/png") 10 = false
  /\ (forall (any_type : str) (n : Z),
        50000 < n -> should_show_content any_type n = false).
Proof.
  intros content_type declared.
  split; [|split; [|split; [reflexivity|split; [reflexivity|]]]].
  - intros content_length Hint.
    split; [apply should_show_content_spec|].
    split; [|split].
    + intros Hshow body Htext. unfold attach, read_body.
      fold content_type declared. rewrite Hint. unfold Ok.
      by rewrite Hshow, Htext.
    + intros Hshow e Htext Hexc. unfold attach, read_body.
      fold content_type declared. rewrite Hint. unfold Ok.
      rewrite Hshow, Htext. unfold Raise. by rewrite Hexc.
    + intros Hshow. unfold attach, read_body.
      fold content_type declared. rewrite Hint. unfold Ok. by rewrite Hshow.
  - intros e Hint Hexc. unfold attach, read_body.
    fold declared. rewrite Hint. unfold Raise. by rewrite Hexc.
  - intros any_type n Hn. unfold should_show_content.
    destruct (Z.leb_spec n 50000); [lia|done].
Qed.

End RecorderFacts.

Lemma one_response_per_record_witness :
  let st := {| calls := []; network_requests := [Sample.with_body None; Sample.pending];
               console_messages := [] |} in
  network_requests st !! 0%nat = Some (Sample.with_body None)
  /\ NetworkRequest.response (Sample.with_body None) = Some Sample.ok_json
  /\ network_requests
       (@record CPython.builtins
          [on_response Sample.redirect; on_request Sample.get_data;
           on_response Sample.ok_json] st) !! 0%nat
     = Some (Sample.with_body None).
Proof.
  intros st. split; [reflexivity|]. split; [reflexivity|].
  apply (proj2 (@one_response_per_record CPython.builtins Sample.ok_json []))
    with (attached := Sample.ok_json); reflexivity.
Defined.

(** The second response for a request whose only record is complete is not
    recorded, and one for a request never recorded is dropped. *)
Example duplicate_response_dropped :
  @handle_response CPython.builtins Sample.redirect [Sample.with_body None]
  = [Sample.with_body None]
  /\ @handle_response CPython.builtins Sample.ok_json [] = [].
Proof. split; reflexivity. Qed.

Lemma body_inclusion_policy_witness :
  @int CPython.builtins
    (default (u "0") (Response.headers Sample.ok_json !! u "content-length"))
  = Ok 100
  /\ NetworkRequest.response_body
       (@attach CPython.builtins Sample.pending Sample.ok_json)
     = Some (u "{'status': 'ok'}").
Proof.
  assert (Hint : @int CPython.builtins
    (default (u "0") (Response.headers Sample.ok_json !! u "content-length"))
    = Ok 100) by (vm_compute; reflexivity).
  split; [exact Hint|].
  destruct (@body_inclusion_policy CPython.builtins Sample.pending
              Sample.ok_json) as (Hpolicy & _).
  destruct (Hpolicy 100 Hint) as (_ & Hfull & _).
  apply Hfull; vm_compute; reflexivity.
Defined.

(** C2 as stated fails: a redirect declares "text/html" and length 0, which
    meets the inclusion condition, but its body read raises and what is
    captured is the error placeholder, not a decoded body; and a response
    whose declared length is not a number gets the error placeholder and not
    the one naming its type and length. *)
Lemma body_inclusion_counterexample :
  (should_show_content (u "text/html") 0 = true
   /\ (forall body : str, Response.text Sample.redirect <> Ok body)
   /\ NetworkRequest.response_body
        (@attach CPython.builtins Sample.pending Sample.redirect)
      = Some (u "[Error reading response]"))
  /\ ((forall n : Z, should_show_content (u "image/png") n = false)
      /\ forall n : Z,
           NetworkRequest.response_body
             (@attach CPython.builtins Sample.pending Sample.garbled)
           <> Some (u "[image/png - " ++ str_of_int n ++ u " bytes]")).
Proof.
  split; [split; [reflexivity|split; [discriminate|vm_compute; reflexivity]]|].
  split; [intros n; unfold should_show_content; apply andb_false_r|].
  intros n.
  replace (NetworkRequest.response_body
             (@attach CPython.builtins Sample.pending Sample.garbled))
    with (Some (u "[Error reading response]")) by (vm_compute; reflexivity).
  vm_compute. intros Heq. discriminate Heq.
Qed.

(** ** The URL validator *)

Section Validator.
Context `{Builtins}.

(** The validator returns true exactly when the string parses into a
    non-empty scheme and a non-empty network location, and false exactly
    when it parses and one of the two is empty; it has no handler for an
    error of the parser, which leaves it as raised. *)
Theorem is_valid_url_spec (url : str) :
  (is_valid_url url = Ok true
   <-> exists parsed : ParseResult,
         urlparse url = Ok parsed /\ scheme parsed <> [] /\ netloc parsed <> [])
  /\ (is_valid_url url = Ok false
      <-> exists parsed : ParseResult,
            urlparse url = Ok parsed
            /\ (scheme parsed = [] \/ netloc parsed = []))
  /\ (forall e : exn, is_valid_url url = Raise e <-> urlparse url = Raise e).
Proof.
  unfold is_valid_url, Ok, Raise.
  destruct (urlparse url) as [e|[sch loc]]; cbn [scheme netloc].
  - split; [|split].
    + split; [discriminate|]. intros (? & ? & _). discriminate.
    + split; [discriminate|]. intros (? & ? & _). discriminate.
    + intros e'. split; congruence.
  - split; [|split].
    + split.
      * intros Hv. exists {| scheme := sch; netloc := loc |}.
        destruct sch, loc; cbn in Hv; try discriminate Hv; done.
      * intros (parsed & Hp & Hs & Hn). inversion Hp; subst; cbn in *.
        destruct sch, loc; done.
    + split.
      * intros Hv. exists {| scheme := sch; netloc := loc |}.
        destruct sch, loc; cbn in Hv; try discriminate Hv; cbn; auto.
      * intros (parsed & Hp & Hempty). inversion Hp; subst; cbn in *.
        destruct Hempty as [-> | ->]; [done|]. by destruct sch.
    + intros e. split; discriminate.
Qed.

End Validator.

(** The inputs of the test suite. *)
Example is_valid_url_examples :
  @is_valid_url CPython.builtins (u "https://example.com") = Ok true
  /\ @is_valid_url CPython.builtins (u "not-a-valid-url") = Ok false
  /\ @is_valid_url CPython.builtins (u "/leads") = Ok false.
Proof. repeat split; vm_compute; reflexivity. Qed.

(** An unbalanced bracket in the network location makes [urlsplit] raise,
    whatever the later checks on the location do. *)
Lemma urlsplit_unbalanced_bracket (check_bracketed_host checknetloc : str -> option exn) :
  CPython.urlsplit check_bracketed_host checknetloc (u "http://[")
  = Raise (CPython.ValueError (u "Invalid IPv6 URL")).
Proof. vm_compute. reflexivity. Qed.

(** The error is raised before the [try] statement of [website_snapshot]
    and leaves it: no text unit is returned. *)
Example unparseable_url_raises :
  @website_snapshot CPython.builtins Sample.page (u "http://[") initial
  = (Raise (CPython.ValueError (u "Invalid IPv6 URL")), initial).
Proof. vm_compute. reflexivity. Qed.

(** C5, at the failing input: on "http://[", whose network location has an
    unbalanced bracket, [urlparse] raises [ValueError] and the validator,
    which calls it without a handler, raises that error where the claim has
    it return false. *)
Lemma is_valid_url_counterexample :
  @is_valid_url CPython.builtins (u "http://[")
  = Raise (CPython.ValueError (u "Invalid IPv6 URL")).
Proof. vm_compute. reflexivity. Qed.

(** ** The orchestrator *)

Section OrchestratorFacts.
Context `{Builtins}.

Lemma no_close_ret {A : Type} (a : A) : no_close (ret a).
Proof.
  intros st st' r Heq. inversion Heq; subst. exists []. by rewrite app_nil_r.
Qed.

Lemma no_close_lift {A : Type} (r : result A) : no_close (lift r).
Proof.
  intros st st' r' Heq. inversion Heq; subst. exists []. by rewrite app_nil_r.
Qed.

Lemma no_close_get : no_close get.
Proof.
  intros st st' r Heq. inversion Heq; subst. exists []. by rewrite app_nil_r.
Qed.

Lemma no_close_log (o : op) : is_browser_close o = false -> no_close (log o).
Proof.
  intros Ho st st' r Heq. inversion Heq; subst. exists [o]. cbn.
  by rewrite Ho.
Qed.

Lemma no_close_bind {A B : Type} (c : M A) (k : A -> M B) :
  no_close c -> (forall a : A, no_close (k a)) -> no_close (bind c k).
Proof.
  intros Hc Hk st st' r. unfold bind.
  destruct (c st) as [[e|a] st1] eqn:Ec.
  - intros Heq. inversion Heq; subst. exact (Hc _ _ _ Ec).
  - intros Ek. destruct (Hc _ _ _ Ec) as (tr1 & Hcalls1 & Hnone1).
    destruct (Hk a _ _ _ Ek) as (tr2 & Hcalls2 & Hnone2).
    exists (tr1 ++ tr2). rewrite Hcalls2, Hcalls1, <- app_assoc.
    split; [done|]. by rewrite filter_app, Hnone1, Hnone2.
Qed.

Lemma no_close_try_except {A : Type} (body : M A) (handler : exn -> M A) :
  no_close body -> (forall e : exn, no_close (handler e)) ->
  no_close (try_except body handler).
Proof.
  intros Hb Hh st st' r. unfold try_except.
  destruct (body st) as [[e|a] st1] eqn:Eb.
  - destruct (is_Exception e).
    + intros Eh. destruct (Hb _ _ _ Eb) as (tr1 & Hcalls1 & Hnone1).
      destruct (Hh e _ _ _ Eh) as (tr2 & Hcalls2 & Hnone2).
      exists (tr1 ++ tr2). rewrite Hcalls2, Hcalls1, <- app_assoc.
      split; [done|]. by rewrite filter_app, Hnone1, Hnone2.
    + intros Heq. inversion Heq; subst. exact (Hb _ _ _ Eb).
  - intros Heq. inversion Heq; subst. exact (Hb _ _ _ Eb).
Qed.

Lemma record_calls (events : list event) (st : State) :
  calls (record events st) = calls st.
Proof.
  revert st. induction events as [|ev events IH]; intros st; [done|].
  cbn [record fold_left]. unfold record in IH. rewrite IH. by destruct ev.
Qed.

Lemma no_close_invoke {A : Type} (o : op) (r : result A) :
  is_browser_close o = false -> no_close (invoke o r).
Proof.
  intros Ho. apply no_close_bind; [by apply no_close_log|].
  intros _. apply no_close_lift.
Qed.

Lemma no_close_await {A : Type} (o : op) (c : call A) :
  is_browser_close o = false -> no_close (await o c).
Proof.
  intros Ho. apply no_close_bind; [by apply no_close_log|].
  intros _ st st' r Heq. inversion Heq; subst.
  exists []. by rewrite record_calls, app_nil_r.
Qed.

Lemma no_close_capture (w : Driver) (target_url : str) :
  no_close (capture w target_url).
Proof.
  unfold capture.
  repeat first
    [ apply no_close_invoke; reflexivity
    | apply no_close_await; reflexivity
    | apply no_close_log; reflexivity
    | apply no_close_get
    | apply no_close_ret
    | apply no_close_try_except; [|intros ?]
    | apply no_close_bind; [|intros ?] ].
Qed.

(** A failure of context creation, and one of the navigation, leave the
    [try] block as raised. *)
Lemma capture_context_failure (w : Driver) (target_url : str) (e : exn)
    (st : State) :
  new_context w = Raise e -> fst (capture w target_url st) = Raise e.
Proof. intros He. unfold capture, bind, invoke, bind, log, lift. by rewrite He. Qed.

Lemma capture_navigation_failure (w : Driver) (target_url : str) (e : exn)
    (st : State) :
  new_context w = Ok tt -> new_page w = Ok tt -> outcome (goto w) = Raise e ->
  fst (capture w target_url st) = Raise e.
Proof.
  intros Hc Hp Hg. unfold capture, bind, invoke, await, bind, log, lift.
  by rewrite Hc, Hp, Hg.
Qed.

(** C6: for a target URL the validator rejects, the orchestrator returns
    one text unit, the fixed validation message, and leaves the state as it
    was: no call is made on the browser driver. *)
Theorem invalid_url_short_circuit (w : Driver) (target_url : str) (st : State) :
  is_valid_url target_url = Ok false ->
  website_snapshot w target_url st
  = (Ok [text_content (u "Url must be valid, example: https://example.com")], st)
  /\ calls (snd (website_snapshot w target_url initial)) = [].
Proof.
  intros Hv. unfold website_snapshot, bind, lift. rewrite Hv. done.
Qed.

End OrchestratorFacts.

(** ** Running the [try] block call by call *)

Section Stepping.
Context `{Builtins}.

Lemma bind_run {A B : Type} (c : M A) (k : A -> M B) (st st1 : State)
    (x : result A) :
  c st = (x, st1) ->
  bind c k st = match x with
                | inl e => (inl e, st1)
                | inr a => k a st1
                end.
Proof. intros Hc. unfold bind. rewrite Hc. by destruct x. Qed.

Lemma log_run (o : op) (st : State) : log o st = (inr tt, snd (log o st)).
Proof. reflexivity. Qed.

Lemma invoke_run {A : Type} (o : op) (r : result A) (st : State) :
  invoke o r st = (r, snd (log o st)).
Proof. reflexivity. Qed.

Lemma await_run {A : Type} (o : op) (c : call A) (st : State) :
  await o c st = (outcome c, record (delivered c) (snd (log o st))).
Proof. reflexivity. Qed.

Lemma soft_wait_run {B : Type} (o o' : op) (c c' : call unit)
    (k : unit -> M B) (st : State) :
  bind (try_except (await o c) (fun _ => await o' c')) k st
  = match outcome c with
    | inl e =>
      if is_Exception e
      then bind (await o' c') k (record (delivered c) (snd (log o st)))
      else (inl e, record (delivered c) (snd (log o st)))
    | inr a => k a (record (delivered c) (snd (log o st)))
    end.
Proof.
  unfold bind at 1. unfold try_except. rewrite await_run.
  destruct (outcome c) as [e|a]; [|done]. by destruct (is_Exception e).
Qed.

Lemma calls_log (o : op) (st : State) : calls (snd (log o st)) = calls st ++ [o].
Proof. reflexivity. Qed.

Lemma record_log (o : op) (events : list event) (st : State) :
  record events (snd (log o st)) = snd (log o (record events st)).
Proof.
  revert st. induction events as [|ev events IH]; intros st; [done|].
  cbn [record fold_left]. unfold record in IH.
  rewrite <- IH. f_equal. by destruct ev.
Qed.

Lemma record_app (first later : list event) (st : State) :
  record (first ++ later) st = record later (record first st).
Proof. unfold record. apply fold_left_app. Qed.

End Stepping.

Ltac step Heq :=
  lazymatch type of Heq with
  | bind (invoke ?o ?r) ?k ?st = _ =>
    rewrite (bind_run _ k st _ _ (invoke_run o r st)) in Heq
  | bind (await ?o ?c) ?k ?st = _ =>
    rewrite (bind_run _ k st _ _ (await_run o c st)) in Heq
  | bind (log ?o) ?k ?st = _ =>
    rewrite (bind_run _ k st _ _ (log_run o st)) in Heq
  | bind (try_except (await ?o ?c) (fun _ => await ?o' ?c')) ?k ?st = _ =>
    rewrite (soft_wait_run o o' c c' k st) in Heq
  | bind get ?k ?st = _ =>
    rewrite (bind_run get k st st (inr st) eq_refl) in Heq
  end.

Ltac trace :=
  repeat first [ rewrite record_calls | rewrite calls_log
               | progress cbn [calls snd log] ];
  rewrite <- ?app_assoc; reflexivity.

Ltac halted Heq :=
  apply pair_equal_spec in Heq as [<- <-];
  split; [cbn [succeeded calls_until_failure app]; trace|reflexivity].

Section FatalError.
Context `{Builtins}.

(** What a run of the [try] block does, read off the outcomes of the
    driver's calls: the calls made are those up to the first after which the
    block does not go on, and the block raises [first_error] when there is
    one and returns otherwise. *)
Lemma capture_outcome (w : Driver) (target_url : str) (st st' : State)
    (r : result (list TextContent)) :
  capture w target_url st = (r, st') ->
  calls st' = calls st ++ calls_until_failure (capture_steps w target_url)
  /\ match first_error w with
     | Some e => r = inl e
     | None => exists parts : list TextContent, r = inr parts
     end.
Proof.
  unfold capture, first_error, capture_steps, Ok, Raise. intros Heq.
  step Heq. destruct (new_context w) as [e|[]]; [halted Heq|].
  step Heq. destruct (new_page w) as [e|[]]; [halted Heq|].
  do 4 step Heq.
  step Heq. destruct (outcome (goto w)) as [e|[]]; [halted Heq|].
  step Heq.
  destruct (outcome (wait_for_load_state w)) as [e|[]]; [halted Heq|].
  step Heq. destruct (outcome (wait_for_selector w)) as [e|[]].
  - destruct (is_Exception e); [|halted Heq].
    step Heq.
    destruct (outcome (wait_for_timeout w)) as [e'|[]]; [halted Heq|].
    step Heq.
    destruct (outcome (aria_snapshot w)) as [e'|snapshot]; [halted Heq|].
    step Heq.
    destruct (outcome (title w)) as [e'|page_title]; [halted Heq|].
    step Heq. step Heq.
    destruct (outcome (context_close w)) as [e'|[]]; [halted Heq|].
    unfold ret in Heq. apply pair_equal_spec in Heq as [<- <-].
    split; [cbn [succeeded calls_until_failure app]; trace|].
    eexists. reflexivity.
  - step Heq.
    destruct (outcome (aria_snapshot w)) as [e'|snapshot]; [halted Heq|].
    step Heq.
    destruct (outcome (title w)) as [e'|page_title]; [halted Heq|].
    step Heq. step Heq.
    destruct (outcome (context_close w)) as [e'|[]]; [halted Heq|].
    unfold ret in Heq. apply pair_equal_spec in Heq as [<- <-].
    split; [cbn [succeeded calls_until_failure app]; trace|].
    eexists. reflexivity.
Qed.

(** C1, amended: when the URL is valid, the driver starts and the browser
    launches, the error of class [Exception] that leaves the [try] block,
    the error of the first call that raises among context creation, page
    creation, navigation, the load wait, the fixed delay, the snapshot, the
    title and closing the context, is caught, and provided closing the
    browser and stopping the driver succeed the orchestrator returns exactly
    one text unit, "Failed: " followed by the error's text, and
    [browser.close()] was called exactly once. An error of class
    [Exception] raised by the wait for an interactive element is not such an
    error: it is swallowed and the fixed delay is awaited. *)
Theorem fatal_error_reported (w : Driver) (target_url : str) (e : exn) :
  is_valid_url target_url = Ok true ->
  start w = Ok tt ->
  launch w = Ok tt ->
  first_error w = Some e ->
  is_Exception e = true ->
  browser_close w = Ok tt ->
  stop w = Ok tt ->
  exists st' : State,
    website_snapshot w target_url initial
    = (Ok [text_content (u "❌ Failed: " ++ message e)], st')
    /\ browser_closes st' = 1%nat.
Proof.
  intros Hv Hs Hl Hfirst Hexc Hclose Hstop.
  destruct (capture w target_url launched) as [r st1] eqn:Hcap.
  destruct (no_close_capture _ _ _ _ _ Hcap) as (tr & Hcalls & Hnone).
  destruct (capture_outcome _ _ _ _ _ Hcap) as [_ Hr].
  rewrite Hfirst in Hr. subst r. unfold launched in Hcap.
  eexists. split.
  - unfold website_snapshot, bind, lift. rewrite Hv.
    unfold async_with, try_finally, try_except, invoke, bind, log, lift, initial.
    rewrite Hs, Hl. unfold Ok, Raise in *. cbn -[capture u].
    rewrite Hcap, Hexc. unfold failed, ret.
    rewrite Hclose, Hstop. reflexivity.
  - unfold browser_closes. cbn [calls]. rewrite Hcalls.
    rewrite !filter_app, Hnone. reflexivity.
Qed.

End FatalError.

Lemma invalid_url_short_circuit_witness :
  @is_valid_url CPython.builtins (u "not-a-valid-url") = Ok false
  /\ @website_snapshot CPython.builtins Sample.page (u "not-a-valid-url") initial
     = (Ok [text_content (u "Url must be valid, example: https://example.com")],
        initial).
Proof.
  assert (Hv : @is_valid_url CPython.builtins (u "not-a-valid-url") = Ok false)
    by (vm_compute; reflexivity).
  split; [exact Hv|].
  apply (@invalid_url_short_circuit CPython.builtins Sample.page
           (u "not-a-valid-url") initial Hv).
Defined.

Lemma fatal_error_reported_witness :
  @is_valid_url CPython.builtins (u "https://example.com") = Ok true
  /\ first_error Sample.context_fails
     = Some (Sample.Exception (u "Browser context creation failed"))
  /\ exists st' : State,
       @website_snapshot CPython.builtins Sample.context_fails
         (u "https://example.com") initial
       = (Ok [text_content (u "❌ Failed: Browser context creation failed")], st')
       /\ browser_closes st' = 1%nat.
Proof.
  assert (Hv : @is_valid_url CPython.builtins (u "https://example.com")
               = Ok true) by (vm_compute; reflexivity).
  split; [exact Hv|]. split; [reflexivity|].
  destruct (@fatal_error_reported CPython.builtins Sample.context_fails
              (u "https://example.com")
              (Sample.Exception (u "Browser context creation failed"))
              Hv eq_refl eq_refl eq_refl eq_refl eq_refl eq_refl)
    as (st' & Heq & Hcount).
  exists st'. split; [|exact Hcount].
  rewrite Heq. vm_compute. reflexivity.
Defined.

(** The calls made when context creation fails, in order. *)
Example context_failure_calls :
  calls (snd (@website_snapshot CPython.builtins Sample.context_fails
                (u "https://example.com") initial))
  = [Start; Launch; NewContext; BrowserClose; Stop].
Proof. vm_compute. reflexivity. Qed.

(** C1 as stated fails for the wait for an interactive element: when it
    times out the error is swallowed by the inner [except], the fixed delay
    of 3000 ms is awaited and the capture goes on to return the same three
    text units as when the wait succeeds, not one "Failed: " unit. *)
Lemma selector_failure_counterexample :
  outcome (wait_for_selector Sample.no_marker)
  = Raise (Sample.Exception (u "Timeout 10000ms exceeded."))
  /\ fst (@website_snapshot CPython.builtins Sample.no_marker
            (u "https://example.com") initial)
     = fst (@website_snapshot CPython.builtins Sample.page
              (u "https://example.com") initial)
  /\ match fst (@website_snapshot CPython.builtins Sample.no_marker
                  (u "https://example.com") initial) with
     | inr parts => length parts
     | inl _ => 0%nat
     end = 3%nat
  /\ calls (snd (@website_snapshot CPython.builtins Sample.no_marker
                   (u "https://example.com") initial))
     = [Start; Launch; NewContext; NewPage; SetDefaultTimeout 15000;
        On (u "console"); On (u "request"); On (u "response");
        Goto (u "https://example.com"); WaitForLoadState; WaitForSelector;
        WaitForTimeout 3000; AriaSnapshot; Title; ContextClose;
        BrowserClose; Stop].
Proof.
  split; [reflexivity|].
  split; [vm_compute; reflexivity|].
  split; vm_compute; reflexivity.
Qed.

(** A failure of the launch itself: the launch is awaited before the [try]
    statement, so the error leaves [website_snapshot] as raised and
    [browser.close()] is not called. *)
Lemma launch_failure_counterexample :
  @website_snapshot CPython.builtins Sample.launch_fails
    (u "https://example.com") initial
  = (Raise (Sample.Exception (u "Executable doesn't exist")),
     {| calls := [Start; Launch; Stop]; network_requests := [];
        console_messages := [] |})
  /\ browser_closes
       (snd (@website_snapshot CPython.builtins Sample.launch_fails
               (u "https://example.com") initial)) = 0%nat.
Proof. split; vm_compute; reflexivity. Qed.

(** The happy path of the test suite: four references, no request, no
    console message. *)
Example snapshot_success :
  fst (@website_snapshot CPython.builtins Sample.page (u "https://example.com")
         initial)
  = Ok [text_content
          (u "✅ Captured snapshot with 4 elements, 0 requests, 0 console messages");
        text_content
          (join [LF]
             [u "🔍 Example Page"; u "📍 https://example.com/page"; u "";
              u "🎭 Accessibility Snapshot:";
              u "heading Example Page"; u "button Submit  [ref=1]";
              u "link Home [ref=2]"; u "textbox Email [ref=3]";
              u "button Login [ref=4]"; u "";
              u ""; u "🌐 Network Requests:"; u "No requests captured";
              u ""; u "🖥️ Console:"; u "No console messages"]);
        text_content
          (join [LF]
             [u "🎯 Element References:"; u "[ref=1]: button Submit";
              u "[ref=2]: link Home"; u "[ref=3]: textbox Email";
              u "[ref=4]: button Login"])].
Proof. vm_compute. reflexivity. Qed.

(** ** The snapshot annotator *)

Section Annotator.
Context `{Builtins}.

Lemma add_element_refs_loop (visited rest : list (list N)) (k : Z) :
  fst (fold_left add_element_refs_step
         (imap (fun i x => ((length visited + i)%nat, x)) rest)
         (visited ++ rest, k))
  = visited ++ annotate rest k.
Proof.
  revert visited k. induction rest as [|line rest IH]; intros visited k; [done|].
  rewrite imap_cons. cbn [fold_left annotate add_element_refs_step].
  rewrite Nat.add_0_r.
  assert (Hshift : forall new : list N,
    imap ((fun i x => ((length visited + i)%nat, x)) ∘ S) rest
    = imap (fun i x => ((length (visited ++ [new]) + i)%nat, x)) rest).
  { intros new. apply imap_ext. intros i x _. cbn. rewrite length_app. cbn.
    f_equal. lia. }
  destruct (is_interactive line).
  - rewrite (Hshift (ref_tag line k)).
    replace (<[length visited := ref_tag line k]> (visited ++ line :: rest))
      with ((visited ++ [ref_tag line k]) ++ rest).
    + rewrite IH. by rewrite <- app_assoc.
    + rewrite <- app_assoc. cbn [app].
      rewrite insert_app_r_alt by lia. by rewrite Nat.sub_diag.
  - rewrite (Hshift line).
    replace (visited ++ line :: rest) with ((visited ++ [line]) ++ rest)
      by (by rewrite <- app_assoc).
    rewrite IH. by rewrite <- app_assoc.
Qed.

Lemma add_element_refs_annotate (snapshot : list N) :
  add_element_refs snapshot = join [LF] (annotate (split LF snapshot) 1).
Proof.
  unfold add_element_refs, enumerate. f_equal.
  exact (add_element_refs_loop [] (split LF snapshot) 1).
Qed.

Lemma annotate_length (lines : list (list N)) (k : Z) :
  length (annotate lines k) = length lines.
Proof.
  revert k. induction lines as [|line lines IH]; intros k; [done|].
  cbn [annotate]. destruct (is_interactive line); cbn [length]; by rewrite IH.
Qed.

Lemma annotate_lookup (lines : list (list N)) (k : Z) (i : nat) (line : list N) :
  lines !! i = Some line ->
  annotate lines k !! i
  = Some (if is_interactive line
          then ref_tag line (k + matched_before lines i)
          else line).
Proof.
  revert k i. induction lines as [|first lines IH]; intros k i Hi; [done|].
  destruct i as [|i].
  - cbn in Hi. inversion Hi; subst. cbn [annotate].
    unfold matched_before. cbn [take length]. rewrite filter_nil.
    cbn [length]. rewrite Z.add_0_r.
    by destruct (is_interactive line).
  - cbn in Hi. cbn [annotate]. unfold matched_before. cbn [take].
    destruct (is_interactive first) eqn:Hfirst.
    + rewrite filter_cons_True by (by rewrite Hfirst).
      etransitivity; [exact (IH (k + 1) i Hi)|].
      unfold matched_before. cbn [length].
      destruct (is_interactive line); [|reflexivity].
      f_equal. f_equal. lia.
    + rewrite filter_cons_False by (rewrite Hfirst; intros []).
      exact (IH k i Hi).
Qed.

Lemma ref_tag_no_LF (line : list N) (k : Z) :
  no_char LF line -> no_char LF (ref_tag line k).
Proof.
  intros Hline. unfold ref_tag, no_char. rewrite !Forall_app.
  split; [done|]. split; [|split].
  - vm_compute. repeat constructor; discriminate.
  - apply str_of_int_no_char. left. reflexivity.
  - vm_compute. repeat constructor; discriminate.
Qed.

Lemma annotate_no_LF (lines : list (list N)) (k : Z) :
  Forall (no_char LF) lines -> Forall (no_char LF) (annotate lines k).
Proof.
  intros Hall. revert k. induction Hall as [|line lines Hline _ IH]; intros k;
    [done|].
  cbn [annotate]. destruct (is_interactive line); constructor; auto.
  by apply ref_tag_no_LF.
Qed.

Lemma add_element_refs_lines (snapshot : list N) :
  split LF (add_element_refs snapshot) = annotate (split LF snapshot) 1.
Proof.
  rewrite add_element_refs_annotate. apply split_join.
  - intros Hnil. apply (split_nonempty LF snapshot).
    apply length_zero_iff_nil. rewrite <- (annotate_length _ 1), Hnil. done.
  - apply annotate_no_LF, split_no_sep.
Qed.

End Annotator.

Section Parser.
Context `{Builtins}.

Lemma parse_refs_step_plain (refs : list RefEntry) (line : list N) :
  contains (u "[ref=") line = false -> parse_refs_step refs line = refs.
Proof. intros Hno. unfold parse_refs_step. by rewrite Hno. Qed.

Lemma ref_tag_parts (line : list N) (k : Z) :
  ref_tag line k = (line ++ u " [ref=") ++ str_of_int k ++ u "]"
  /\ ref_tag line k = line ++ 32%N :: u "[ref=" ++ str_of_int k ++ u "]".
Proof. unfold ref_tag. split; [by rewrite <- app_assoc|reflexivity]. Qed.

Lemma ref_tag_find_marker (line : list N) (k : Z) :
  contains (u "[ref=") line = false ->
  index (u "[ref=") (ref_tag line k) = Some (length line + 1)%nat.
Proof.
  intros Hno. rewrite (proj2 (ref_tag_parts line k)).
  rewrite index_absent.
  - rewrite index_here. change (Some (length line + 1 + 0)%nat = Some (length line + 1)%nat).
    f_equal. lia.
  - vm_compute. repeat constructor; discriminate.
  - unfold contains in Hno. by destruct (index (u "[ref=") line).
Qed.

Lemma ref_tag_find_close (line : list N) (k : Z) :
  index (u "]") (drop (length line + 6) (ref_tag line k))
  = Some (length (str_of_int k)).
Proof.
  rewrite (proj1 (ref_tag_parts line k)).
  replace (length line + 6)%nat with (length (line ++ u " [ref="))
    by (rewrite length_app; reflexivity).
  rewrite drop_app_length. change (u "]") with [93%N].
  apply index_char, str_of_int_no_char. right. reflexivity.
Qed.

Lemma parse_refs_step_tagged (refs : list RefEntry) (line : list N) (k : Z) :
  contains (u "[ref=") line = false ->
  parse_refs_step refs (ref_tag line k)
  = refs ++ [{| ref := str_of_int k; element := strip line |}].
Proof.
  intros Hno. unfold parse_refs_step.
  pose proof (ref_tag_find_marker line k Hno) as Hmark.
  pose proof (ref_tag_find_close line k) as Hclose.
  assert (Hlen : length (ref_tag line k)
                 = (length line + 6 + length (str_of_int k) + 1)%nat).
  { rewrite (proj1 (ref_tag_parts line k)), !length_app.
    change (length (u " [ref=")) with 6%nat.
    change (length (u "]")) with 1%nat. lia. }
  assert (Hfind : find (u "[ref=") (ref_tag line k) 0
                  = Z.of_nat (length line + 1)).
  { pose proof (find_from (u "[ref=") (ref_tag line k) 0 (length line + 1))
      as Hf.
    rewrite drop_0 in Hf. change (Z.of_nat 0) with 0 in Hf.
    rewrite Hf; [lia|lia|done]. }
  unfold contains. rewrite Hmark, Hfind.
  replace (Z.of_nat (length line + 1) + 5) with (Z.of_nat (length line + 6))
    by lia.
  rewrite (find_from (u "]") (ref_tag line k) (length line + 6)
             (length (str_of_int k))) by (lia || done).
  pose proof (str_of_int_nonempty k) as Hne.
  assert (0 < length (str_of_int k))%nat
    by (destruct (str_of_int k); [done|cbn; lia]).
  destruct (Z.gtb_spec
              (Z.of_nat (length line + 6) + Z.of_nat (length (str_of_int k)))
              (Z.of_nat (length line + 6))); [|lia].
  do 3 f_equal.
  - rewrite (proj1 (ref_tag_parts line k)).
    replace (Z.of_nat (length line + 6))
      with (Z.of_nat (length (line ++ u " [ref=")))
      by (rewrite length_app; reflexivity).
    rewrite <- Nat2Z.inj_add. apply slice_middle.
  - rewrite (proj2 (ref_tag_parts line k)).
    change (line ++ 32%N :: ?rest) with (line ++ u " " ++ rest).
    rewrite app_assoc.
    replace (Z.of_nat (length line + 1)) with (Z.of_nat (length (line ++ u " ")))
      by (rewrite length_app; reflexivity).
    rewrite slice_to_prefix. apply strip_trailing_space.
Qed.

Lemma parse_refs_annotate (lines : list (list N)) (k : Z) (refs : list RefEntry) :
  Forall (fun line => contains (u "[ref=") line = false) lines ->
  fold_left parse_refs_step (annotate lines k) refs
  = refs ++ imap (fun i line => {| ref := str_of_int (k + Z.of_nat i);
                                   element := strip line |})
                 (filter (fun line => is_interactive line) lines).
Proof.
  intros Hall. revert k refs.
  induction Hall as [|line lines Hline _ IH]; intros k refs.
  - cbn. by rewrite app_nil_r.
  - cbn [annotate]. destruct (is_interactive line) eqn:Hmatch.
    + rewrite filter_cons_True by (by rewrite Hmatch).
      cbn [fold_left]. rewrite parse_refs_step_tagged by done.
      rewrite IH, imap_cons, <- app_assoc. cbn [app].
      rewrite Z.add_0_r. do 2 f_equal.
      apply imap_ext. intros i x _. cbn. do 2 f_equal. lia.
    + rewrite filter_cons_False by (rewrite Hmatch; intros []).
      cbn [fold_left]. rewrite parse_refs_step_plain by done. apply IH.
Qed.

End Parser.

Section AnnotatorClaims.
Context `{Builtins}.

(** C8: [add_element_refs] keeps the number of lines, leaves every line
    that does not match the interactivity heuristic unchanged, and keeps the
    order: the line at each position of the output begins with the line at
    that position of the input. *)
Theorem add_element_refs_frame (snapshot : str) :
  let lines := split LF snapshot in
  let out := split LF (add_element_refs snapshot) in
  length out = length lines
  /\ forall (i : nat) (line : str),
       lines !! i = Some line ->
       (is_interactive line = false -> out !! i = Some line)
       /\ exists tag : str, out !! i = Some (line ++ tag).
Proof.
  intros lines out. unfold out, lines. rewrite add_element_refs_lines.
  split; [apply annotate_length|].
  intros i line Hi. rewrite (annotate_lookup _ 1 i line Hi).
  split.
  - by intros ->.
  - destruct (is_interactive line).
    + eexists. unfold ref_tag. reflexivity.
    + exists []. by rewrite app_nil_r.
Qed.

(** C3, amended: the matching lines of the annotated text carry the tags
    numbered 1..N in top-to-bottom order; and when no line of the input
    contains "[ref=" already, [parse_refs] applied to the annotated text
    gives exactly N entries in that order, the i-th pairing the number i
    with the trimmed text of the i-th matching line. *)
Theorem refs_roundtrip (snapshot : str) :
  let lines := split LF snapshot in
  (forall (i : nat) (line : str),
      lines !! i = Some line -> is_interactive line = true ->
      split LF (add_element_refs snapshot) !! i
      = Some (ref_tag line (1 + matched_before lines i)))
  /\ (Forall (fun line => contains (u "[ref=") line = false) lines ->
      parse_refs (add_element_refs snapshot)
      = imap (fun i line => {| ref := str_of_int (Z.of_nat i + 1);
                               element := strip line |})
             (filter (fun line => is_interactive line) lines)).
Proof.
  intros lines. unfold lines. split.
  - intros i line Hi Hmatch.
    rewrite add_element_refs_lines, (annotate_lookup _ 1 i line Hi).
    by rewrite Hmatch.
  - intros Hfresh. unfold parse_refs.
    rewrite add_element_refs_lines, parse_refs_annotate by done.
    cbn [app]. apply imap_ext. intros i line _. cbn. do 2 f_equal. lia.
Qed.

End AnnotatorClaims.

Lemma add_element_refs_frame_witness :
  split LF Sample.page_snapshot !! 0%nat = Some (u "heading Example Page")
  /\ @is_interactive CPython.builtins (u "heading Example Page") = false
  /\ split LF (@add_element_refs CPython.builtins Sample.page_snapshot) !! 0%nat
     = Some (u "heading Example Page").
Proof.
  assert (Hi : split LF Sample.page_snapshot !! 0%nat
               = Some (u "heading Example Page")) by (vm_compute; reflexivity).
  assert (Hplain : @is_interactive CPython.builtins (u "heading Example Page")
                   = false) by (vm_compute; reflexivity).
  split; [exact Hi|]. split; [exact Hplain|].
  destruct (@add_element_refs_frame CPython.builtins Sample.page_snapshot)
    as [_ Hlines].
  destruct (Hlines 0%nat (u "heading Example Page") Hi) as [Hsame _].
  exact (Hsame Hplain).
Defined.

Lemma refs_roundtrip_witness :
  Forall (fun line => contains (u "[ref=") line = false)
         (split LF Sample.page_snapshot)
  /\ parse_refs (@add_element_refs CPython.builtins Sample.page_snapshot)
     = [{| ref := u "1"; element := u "button Submit" |};
        {| ref := u "2"; element := u "link Home" |};
        {| ref := u "3"; element := u "textbox Email" |};
        {| ref := u "4"; element := u "button Login" |}].
Proof.
  assert (Hfresh : Forall (fun line => contains (u "[ref=") line = false)
                          (split LF Sample.page_snapshot)).
  { apply Forall_forall. intros line Hin.
    assert (Hcases : line ∈ [u "heading Example Page"; u "button Submit ";
                             u "link Home"; u "textbox Email"; u "button Login";
                             u ""]) by exact Hin.
    repeat (apply elem_of_cons in Hcases as [-> | Hcases];
            [vm_compute; reflexivity|]).
    by apply elem_of_nil in Hcases. }
  split; [exact Hfresh|].
  destruct (@refs_roundtrip CPython.builtins Sample.page_snapshot)
    as [_ Hparse].
  rewrite (Hparse Hfresh). vm_compute. reflexivity.
Defined.

(** C3 as stated fails for a text that already holds a marker: a line that
    matches no keyword but contains "[ref=" is parsed as a reference although
    nothing was annotated, and on a matching line an earlier marker is the
    one that is read. *)
Lemma refs_roundtrip_counterexample :
  (filter (fun line => @is_interactive CPython.builtins line)
          (split LF (u "heading [ref=9]")) = []
   /\ parse_refs (@add_element_refs CPython.builtins (u "heading [ref=9]"))
      = [{| ref := u "9"; element := u "heading" |}])
  /\ (filter (fun line => @is_interactive CPython.builtins line)
             (split LF (u "link [ref=7] x")) = [u "link [ref=7] x"]
      /\ @add_element_refs CPython.builtins (u "link [ref=7] x")
         = u "link [ref=7] x [ref=1]"
      /\ parse_refs (@add_element_refs CPython.builtins (u "link [ref=7] x"))
         = [{| ref := u "7"; element := u "link" |}]).
Proof. repeat split; vm_compute; reflexivity. Qed.

(** ** Further properties of the orchestrator *)

Section Teardown.
Context `{Builtins}.

(** Once the browser is launched, [browser.close()] is called exactly once
    on every path: whether the capture returns or raises, whatever the class
    of the error, and whether or not the close itself succeeds. *)
Lemma browser_closed_once (w : Driver) (target_url : str) :
  is_valid_url target_url = Ok true ->
  start w = Ok tt ->
  launch w = Ok tt ->
  browser_closes (snd (website_snapshot w target_url initial)) = 1%nat.
Proof.
  intros Hv Hs Hl.
  unfold website_snapshot, bind, lift. rewrite Hv.
  unfold async_with, try_finally, try_except, invoke, bind, log, lift, initial.
  rewrite Hs, Hl. unfold Ok, Raise in *. cbn -[capture u].
  destruct (capture w target_url _) as [outcome st1] eqn:Hcap.
  destruct (no_close_capture _ _ _ _ _ Hcap) as (tr & Hcalls & Hnone).
  cbn [calls] in Hcalls.
  assert (Hcount : forall rest : list op,
    filter is_browser_close rest = [] ->
    length (filter is_browser_close ((calls st1 ++ [BrowserClose]) ++ rest))
    = 1%nat).
  { intros rest Hrest. rewrite Hcalls, !filter_app, Hnone, Hrest. reflexivity. }
  unfold browser_closes, failed, ret.
  destruct outcome as [e|parts]; [destruct (is_Exception e)|];
    destruct (browser_close w); destruct (stop w);
    cbn [snd calls]; by apply Hcount.
Qed.

End Teardown.

(** The second scenario of the test suite: during the navigation the page
    delivers one GET request, its JSON response and one console message. *)
Example snapshot_with_network_and_console :
  fst (@website_snapshot CPython.builtins Sample.busy_page
         (u "https://example.com") initial)
  = Ok [text_content
          (u "✅ Captured snapshot with 1 elements, 1 requests, 1 console messages");
        text_content
          (join [LF]
             [u "🔍 Test Page"; u "📍 https://example.com"; u "";
              u "🎭 Accessibility Snapshot:";
              u "button Click Me [ref=1]"; u "";
              u "🌐 Network Requests:";
              u "🌐 GET https://api.example.com/data";
              u "   Status: 200";
              u "   Response: {'status': 'ok'}...";
              u ""; u "🖥️ Console:"; u "🖥️ [LOG] Page loaded successfully"]);
        text_content
          (join [LF] [u "🎯 Element References:"; u "[ref=1]: button Click Me"])].
Proof. vm_compute. reflexivity. Qed.

(** The string operations on small inputs. *)
Example str_examples :
  u "🌐 x" = [0x1F310; 0x20; 0x78]%N
  /\ split LF (join [LF] [u "a"; u "b"; u ""]) = [u "a"; u "b"; u ""]
  /\ find (u "]") (u "ab [ref=12]") 8 = 10
  /\ find (u "]") (u "ab [ref=12") 8 = -1
  /\ slice (u "ab [ref=12]") 8 10 = u "12"
  /\ slice (u "abcdef") (-3) (-1) = u "de"
  /\ strip (u "  button Submit  ") = u "button Submit"
  /\ str_of_int 200 = u "200"
  /\ str_of_int (-7) = u "-7".
Proof. repeat split; vm_compute; reflexivity. Qed.

(** * Further properties *)

(** ** The recorder callbacks *)

Section RecorderExtras.
Context `{Builtins}.

Lemma handle_request_run (request : Request.t) (nrs : list NetworkRequest) :
  (forall e : exn, Request.post_data request = Raise e -> is_Exception e = true) ->
  exists request_body : option str,
    handle_request request nrs
    = nrs ++ [{| NetworkRequest.request := Some request;
                 NetworkRequest.response := None;
                 NetworkRequest.request_body := request_body;
                 NetworkRequest.response_body := None |}]
    /\ (has_body request = false -> request_body = None)
    /\ (forall e : exn, Request.post_data request = Raise e -> request_body = None)
    /\ (forall body : option str,
          has_body request = true -> Request.post_data request = Ok body ->
          request_body = body).
Proof.
  intros Hcatch. unfold handle_request, Ok, Raise in *.
  destruct (has_body request).
  - destruct (Request.post_data request) as [e|body].
    + rewrite (Hcatch e eq_refl). exists None. repeat split; try done.
    + exists body. repeat split; try done. by intros ? _ [= ->].
  - exists None. repeat split; done.
Qed.

(** [handle_request] appends one pending record for the request and leaves
    the earlier records alone: without a request body when the upper-cased
    method is not POST, PUT or PATCH, with the body the read returns when it
    is, and without a body when that read raises an error of class
    [Exception]. When the read raises an error of another class, no record
    is appended. *)
Theorem handle_request_appends (request : Request.t) (nrs : list NetworkRequest) :
  let pending request_body :=
    {| NetworkRequest.request := Some request;
       NetworkRequest.response := None;
       NetworkRequest.request_body := request_body;
       NetworkRequest.response_body := None |} in
  (has_body request = false ->
   handle_request request nrs = nrs ++ [pending None])
  /\ (has_body request = true ->
      forall body : option str,
        Request.post_data request = Ok body ->
        handle_request request nrs = nrs ++ [pending body])
  /\ (has_body request = true ->
      forall e : exn,
        Request.post_data request = Raise e -> is_Exception e = true ->
        handle_request request nrs = nrs ++ [pending None])
  /\ (has_body request = true ->
      forall e : exn,
        Request.post_data request = Raise e -> is_Exception e = false ->
        handle_request request nrs = nrs).
Proof.
  intros pending. unfold handle_request, Ok, Raise.
  split; [by intros ->|]. split; [|split].
  - by intros -> body ->.
  - by intros -> e -> ->.
  - by intros -> e -> ->.
Qed.

Lemma awaits_handle (entry : NetworkRequest) (response : Response.t) :
  awaits entry response = true ->
  exists q : Request.t,
    NetworkRequest.request entry = Some q
    /\ Request.handle q = Request.handle (Response.request response)
    /\ NetworkRequest.response entry = None.
Proof.
  unfold awaits, same_request. intros Haw.
  apply andb_prop in Haw as [Hsame Hfree].
  destruct (NetworkRequest.request entry) as [q|]; [|done].
  exists q. split; [done|]. split; [by apply Nat.eqb_eq|].
  by destruct (NetworkRequest.response entry).
Qed.

(** When every record has its own request handle, a response whose request
    has a record without response is attached to that very record. *)
Theorem response_finds_its_request (response : Response.t)
    (nrs : list NetworkRequest) (i : nat) (entry : NetworkRequest) :
  distinct_handles nrs ->
  nrs !! i = Some entry ->
  awaits entry response = true ->
  handle_response response nrs = <[i := attach entry response]> nrs.
Proof.
  intros Hdistinct Hi Haw.
  destruct (handle_response_first response nrs)
    as [(j & found & Hj & Hfound & _ & Heq)|[Hnone _]].
  - destruct (awaits_handle _ _ Haw) as (p & Hp & Hhp & _).
    destruct (awaits_handle _ _ Hfound) as (q & Hq & Hhq & _).
    assert (i = j) as <-
      by (apply (Hdistinct i j entry found p q); congruence).
    by replace found with entry in Heq by congruence.
  - rewrite (Hnone entry) in Haw; [done|].
    by apply list_elem_of_lookup_2 in Hi.
Qed.

Lemma handle_response_frame (response : Response.t)
    (nrs : list NetworkRequest) :
  length (handle_response response nrs) = length nrs
  /\ map NetworkRequest.request (handle_response response nrs)
     = map NetworkRequest.request nrs
  /\ map NetworkRequest.request_body (handle_response response nrs)
     = map NetworkRequest.request_body nrs.
Proof.
  induction nrs as [|entry rest (IHlen & IHreq & IHbody)]; [done|].
  cbn [handle_response]. destruct (awaits entry response).
  - destruct (attach_response entry response) as (_ & Hreq & Hbody).
    cbn [length map]. by rewrite Hreq, Hbody.
  - cbn [length map]. by rewrite IHlen, IHreq, IHbody.
Qed.

(** [handle_response] never adds or removes a record and never changes a
    request handle or a request body. *)
Theorem handle_response_preserves (response : Response.t)
    (nrs : list NetworkRequest) :
  length (handle_response response nrs) = length nrs
  /\ map NetworkRequest.request (handle_response response nrs)
     = map NetworkRequest.request nrs
  /\ map NetworkRequest.request_body (handle_response response nrs)
     = map NetworkRequest.request_body nrs.
Proof. apply handle_response_frame. Qed.

End RecorderExtras.

Section RecordExtras.
Context `{Builtins}.

Lemma record_console_messages (events : list event) (st : State) :
  console_messages (record events st) = console_messages st ++ logged events.
Proof.
  revert st. induction events as [|ev events IH]; intros st.
  - cbn. by rewrite app_nil_r.
  - cbn [record fold_left]. unfold record in IH. rewrite IH.
    destruct ev; cbn [deliver console_messages logged omap]; [|done|done].
    by rewrite <- app_assoc.
Qed.

Lemma record_requests (events : list event) (st : State) :
  catchable events ->
  map NetworkRequest.request (network_requests (record events st))
  = map NetworkRequest.request (network_requests st)
    ++ map Some (requested events).
Proof.
  intros Hcatch. revert st.
  induction Hcatch as [|ev events Hev _ IH]; intros st.
  - cbn. by rewrite app_nil_r.
  - cbn [record fold_left]. unfold record in IH. rewrite IH.
    destruct ev as [msg|rq|rs]; cbn [deliver network_requests requested omap].
    + done.
    + destruct (handle_request_run rq (network_requests st) Hev)
        as (body & -> & _).
      rewrite map_app, <- app_assoc. done.
    + by rewrite (proj1 (proj2 (handle_response_frame rs _))).
Qed.

(** The console recorder keeps every message, in the order of arrival,
    whatever network events come in between. *)
Theorem console_in_order (events : list event) (st : State) :
  console_messages (record events st) = console_messages st ++ logged events.
Proof. apply record_console_messages. Qed.

(** The network recorder holds one record per request event, in the order
    of arrival, whatever responses and console messages come in between. *)
Theorem one_record_per_request (events : list event) (st : State) :
  catchable events ->
  map NetworkRequest.request (network_requests (record events st))
  = map NetworkRequest.request (network_requests st)
    ++ map Some (requested events).
Proof. apply record_requests. Qed.

(** A response without a content-length header is handled as one of length
    0: without a content-type either, the placeholder with an empty type is
    captured, and with a content-type that passes the inclusion test the body
    is read whatever its real size. *)
Theorem missing_headers (entry : NetworkRequest) (response : Response.t) :
  int (u "0") = Ok 0 ->
  Response.headers response !! u "content-length" = None ->
  (Response.headers response !! u "content-type" = None ->
   NetworkRequest.response_body (attach entry response) = Some (u "[ - 0 bytes]"))
  /\ (forall content_type body : str,
        Response.headers response !! u "content-type" = Some content_type ->
        should_show_content content_type 0 = true ->
        Response.text response = Ok body ->
        NetworkRequest.response_body (attach entry response) = Some body).
Proof.
  intros Hzero Hlen. unfold attach, read_body. rewrite Hlen.
  cbn [from_option id]. rewrite Hzero. unfold Ok. split.
  - intros ->. cbn [from_option id].
    replace (should_show_content (u "") 0) with false by (vm_compute; reflexivity).
    cbn [NetworkRequest.response_body]. f_equal.
  - intros content_type body -> Hshow Htext. cbn [from_option id].
    by rewrite Hshow, Htext.
Qed.

End RecordExtras.

(** ** The formatters *)

Section FormatExtras.
Context `{Builtins}.

(** A record without a request handle contributes no line, and a list made
    of such records only gives the empty text, not the fallback text. *)
Theorem format_requests_without_handle (requests : list NetworkRequest) :
  requests <> [] ->
  Forall (fun req => NetworkRequest.request req = None) requests ->
  format_requests requests = u "".
Proof.
  intros Hne Hall.
  assert (Hlines : concat (map entry_lines requests) = []).
  { clear Hne. induction Hall as [|req rest Hreq _ IH]; [done|].
    cbn [map concat]. rewrite IH, app_nil_r.
    unfold entry_lines, format_requests_step. by rewrite Hreq. }
  unfold format_requests. destruct requests as [|first rest]; [done|].
  by rewrite format_requests_loop, Hlines.
Qed.

(** The ellipsis is appended to every body summary that is not empty, also
    to one of 200 characters or fewer, which is shown whole. *)
Theorem format_requests_short_body (req : NetworkRequest) (request : Request.t)
    (body : str) :
  NetworkRequest.request req = Some request ->
  NetworkRequest.response_body req = Some body ->
  body <> [] ->
  (length body <= 200)%nat ->
  entry_lines req !! 2%nat = Some (u "   Response: " ++ body ++ u "...").
Proof.
  intros Hreq Hbody Hne Hlen. unfold entry_lines, format_requests_step.
  rewrite Hreq, Hbody. destruct body as [|c body]; [done|].
  cbn [truthy]. rewrite slice_to_take by lia.
  rewrite take_ge by (change (Z.to_nat 200) with 200%nat; lia).
  reflexivity.
Qed.

(** The console section has one line per message, in the order of arrival,
    as long as no formatted message holds a newline. *)
Theorem format_console_lines (messages : list ConsoleMessage.t) :
  messages <> [] ->
  Forall (no_char LF) (map format_message messages) ->
  split LF (format_console messages) = map format_message messages.
Proof.
  intros Hne Hall. unfold format_console.
  destruct messages as [|msg messages]; [done|].
  by apply split_join.
Qed.

End FormatExtras.

(** ** The snapshot annotator and parser *)

Section AnnotatorExtras.
Context `{Builtins}.

Lemma join_split (sep : N) (s : list N) : join [sep] (split sep s) = s.
Proof.
  induction s as [|c s IH]; [done|]. cbn [split].
  pose proof (split_nonempty sep s) as Hne.
  destruct (N.eqb_spec c sep) as [->|_].
  - destruct (split sep s) as [|w ws] eqn:E; [done|].
    change (join [sep] ([] :: w :: ws)) with (sep :: join [sep] (w :: ws)).
    by rewrite IH.
  - destruct (split sep s) as [|w ws] eqn:E; [done|].
    destruct ws as [|w' ws]; cbn in IH |- *; by rewrite <- IH.
Qed.

Lemma annotate_plain (lines : list (list N)) (k : Z) :
  Forall (fun line => is_interactive line = false) lines ->
  annotate lines k = lines.
Proof.
  induction 1 as [|line lines Hline _ IH]; [done|].
  cbn [annotate]. by rewrite Hline, IH.
Qed.

(** A text none of whose lines matches the heuristic is returned as it
    is. *)
Theorem add_element_refs_plain (snapshot : str) :
  Forall (fun line => is_interactive line = false) (split LF snapshot) ->
  add_element_refs snapshot = snapshot.
Proof.
  intros Hplain. rewrite add_element_refs_annotate, annotate_plain by done.
  apply join_split.
Qed.

End AnnotatorExtras.

Section ParserExtras.

Lemma startswith_app_l (sub l r : list N) :
  startswith sub l = true -> startswith sub (l ++ r) = true.
Proof.
  revert l. induction sub as [|a sub IH]; intros l; [done|].
  destruct l as [|b l]; [done|]. cbn.
  intros Hab. apply andb_prop in Hab as [-> Hrest]. by rewrite IH.
Qed.

Lemma index_none_app (sub l r : list N) :
  index sub (l ++ r) = None -> index sub l = None /\ index sub r = None.
Proof.
  induction l as [|c l IH]; cbn [app].
  - intros Hr. split; [|done]. destruct sub; [by destruct r|done].
  - cbn [index].
    change (c :: l ++ r) with ((c :: l) ++ r).
    destruct (startswith sub (c :: l)) eqn:Hhere.
    + by rewrite (startswith_app_l _ _ r Hhere).
    + destruct (startswith sub ((c :: l) ++ r)); [done|].
      destruct (index sub (l ++ r)) eqn:Hrest; [done|].
      intros _. destruct (IH eq_refl) as [-> ->]. done.
Qed.

Lemma index_none_lines (sub : list N) (lines : list (list N)) :
  index sub (join [LF] lines) = None ->
  Forall (fun line => index sub line = None) lines.
Proof.
  induction lines as [|line lines IH]; [done|].
  destruct lines as [|next lines].
  - cbn. by repeat constructor.
  - change (join [LF] (line :: next :: lines))
      with (line ++ LF :: join [LF] (next :: lines)).
    intros Hnone. apply index_none_app in Hnone as [Hline Hrest].
    constructor; [done|]. apply IH.
    change (LF :: join [LF] (next :: lines))
      with ([LF] ++ join [LF] (next :: lines)) in Hrest.
    by apply index_none_app in Hrest as [_ Hrest].
Qed.

(** A match of [sub] cannot begin before a position and run over it when
    the first character of [sub] does not occur again in [sub]. *)
Lemma index_first (c : N) (sub p t : list N) :
  no_char c sub ->
  index (c :: sub) p = None ->
  index (c :: sub) (p ++ (c :: sub) ++ t) = Some (length p).
Proof.
  intros Hsub. induction p as [|b p IH]; intros Hnone.
  - exact (index_here (c :: sub) t).
  - cbn [app index length] in *.
    assert (Hrun : startswith (c :: sub) (b :: p ++ c :: sub ++ t)
                   = startswith (c :: sub) (b :: p)).
    { cbn [startswith]. f_equal. apply startswith_absent, Hsub. }
    rewrite Hrun. destruct (startswith (c :: sub) (b :: p)); [done|].
    destruct (index (c :: sub) p); [done|]. by rewrite IH.
Qed.

Lemma index_char_none (c : N) (l : list N) :
  no_char c l -> index [c] l = None.
Proof.
  induction 1 as [|b l Hb _ IH]; [done|]. cbn [index startswith].
  destruct (N.eqb_spec c b) as [->|_]; [done|]. cbn. by rewrite IH.
Qed.

Lemma find_none (sub s : list N) (start : nat) :
  (start <= length s)%nat ->
  index sub (drop start s) = None ->
  find sub s (Z.of_nat start) = -1.
Proof.
  intros Hle Hi. unfold find.
  destruct (Z.ltb_spec (Z.of_nat start) 0); [lia|].
  destruct (Z.ltb_spec (Z.of_nat (length s)) (Z.of_nat start)); [lia|].
  by rewrite Nat2Z.id, Hi.
Qed.

Lemma marker_found (p t : list N) :
  contains (u "[ref=") p = false ->
  contains (u "[ref=") (p ++ u "[ref=" ++ t) = true
  /\ find (u "[ref=") (p ++ u "[ref=" ++ t) 0 = Z.of_nat (length p).
Proof.
  intros Hno.
  assert (Hidx : index (u "[ref=") (p ++ u "[ref=" ++ t) = Some (length p)).
  { apply (index_first 91%N [114; 101; 102; 61]%N).
    - unfold no_char. repeat constructor; discriminate.
    - change (index (u "[ref=") p = None).
      unfold contains in Hno. by destruct (index (u "[ref=") p). }
  split; [unfold contains; by rewrite Hidx|].
  pose proof (find_from (u "[ref=") (p ++ u "[ref=" ++ t) 0 (length p)) as Hf.
  rewrite drop_0 in Hf. change (Z.of_nat 0) with 0 in Hf.
  rewrite Hf; [lia|lia|done].
Qed.

(** [parse_refs] reads, on a line, the first marker: the reference is the
    text between "[ref=" and the next "]", the element is the trimmed text
    before the marker, and what follows the "]" is ignored. *)
Theorem parse_refs_step_marker (refs : list RefEntry) (p token rest : str) :
  contains (u "[ref=") p = false ->
  no_char 93%N token ->
  token <> [] ->
  parse_refs_step refs (p ++ u "[ref=" ++ token ++ u "]" ++ rest)
  = refs ++ [{| ref := token; element := strip p |}].
Proof.
  intros Hno Htok Hne. unfold parse_refs_step.
  destruct (marker_found p (token ++ u "]" ++ rest) Hno) as [-> ->].
  set (line := p ++ u "[ref=" ++ token ++ u "]" ++ rest).
  assert (Hline : line = (p ++ u "[ref=") ++ token ++ u "]" ++ rest)
    by (unfold line; by rewrite <- app_assoc).
  assert (Hstart : Z.of_nat (length p) + 5 = Z.of_nat (length (p ++ u "[ref=")))
    by (rewrite length_app; change (length (u "[ref=")) with 5%nat; lia).
  rewrite Hstart.
  rewrite (find_from (u "]") line (length (p ++ u "[ref=")) (length token)).
  - assert (0 < length token)%nat by (destruct token; [done|cbn; lia]).
    destruct (Z.gtb_spec
                (Z.of_nat (length (p ++ u "[ref=")) + Z.of_nat (length token))
                (Z.of_nat (length (p ++ u "[ref=")))); [|lia].
    do 3 f_equal.
    + rewrite Hline, <- Nat2Z.inj_add. apply slice_middle.
    + unfold line. by rewrite slice_to_prefix.
  - rewrite Hline, !length_app. lia.
  - rewrite Hline, drop_app_length. change (u "]") with [93%N].
    by apply index_char.
Qed.

(** A marker with nothing between "[ref=" and "]", and a marker that is
    never closed, give no entry. *)
Theorem parse_refs_step_malformed (refs : list RefEntry) (p rest : str) :
  contains (u "[ref=") p = false ->
  parse_refs_step refs (p ++ u "[ref=" ++ u "]" ++ rest) = refs
  /\ (no_char 93%N rest ->
      parse_refs_step refs (p ++ u "[ref=" ++ rest) = refs).
Proof.
  intros Hno.
  assert (Hstart : Z.of_nat (length p) + 5 = Z.of_nat (length (p ++ u "[ref=")))
    by (rewrite length_app; change (length (u "[ref=")) with 5%nat; lia).
  split.
  - unfold parse_refs_step.
    destruct (marker_found p (u "]" ++ rest) Hno) as [-> ->].
    rewrite Hstart.
    rewrite (find_from (u "]") _ (length (p ++ u "[ref=")) 0).
    + destruct (Z.gtb_spec (Z.of_nat (length (p ++ u "[ref=")) + Z.of_nat 0)
                           (Z.of_nat (length (p ++ u "[ref=")))); [lia|done].
    + rewrite !length_app. lia.
    + rewrite app_assoc, drop_app_length. reflexivity.
  - intros Hrest. unfold parse_refs_step.
    destruct (marker_found p rest Hno) as [-> ->].
    rewrite Hstart.
    rewrite (find_none (u "]") _ (length (p ++ u "[ref="))).
    + destruct (Z.gtb_spec (-1) (Z.of_nat (length (p ++ u "[ref="))));
        [lia|done].
    + rewrite !length_app. lia.
    + rewrite app_assoc, drop_app_length. change (u "]") with [93%N].
      by apply index_char_none.
Qed.

Lemma parse_refs_step_app (refs : list RefEntry) (line : list N) :
  parse_refs_step refs line = refs ++ parse_refs_step [] line.
Proof.
  unfold parse_refs_step.
  destruct (contains _ line); [|by rewrite app_nil_r].
  destruct (_ >? _); [done|by rewrite app_nil_r].
Qed.

Lemma parse_refs_loop (lines : list (list N)) (refs : list RefEntry) :
  fold_left parse_refs_step lines refs
  = refs ++ fold_left parse_refs_step lines [].
Proof.
  revert refs. induction lines as [|line lines IH]; intros refs.
  - cbn. by rewrite app_nil_r.
  - cbn [fold_left]. rewrite IH, (IH (parse_refs_step [] line)).
    by rewrite parse_refs_step_app, <- app_assoc.
Qed.

Lemma split_app (sep : N) (a b : list N) :
  split sep (a ++ sep :: b) = split sep a ++ split sep b.
Proof.
  induction a as [|c a IH]; cbn [app split].
  - by rewrite N.eqb_refl.
  - rewrite IH. destruct (N.eqb_spec c sep); [done|].
    pose proof (split_nonempty sep a). by destruct (split sep a).
Qed.

(** The references of a text are those of its lines, in order: parsing two
    texts joined by a newline gives the entries of the first followed by the
    entries of the second. *)
Theorem parse_refs_app (a b : str) :
  parse_refs (a ++ LF :: b) = parse_refs a ++ parse_refs b.
Proof.
  unfold parse_refs. rewrite split_app, fold_left_app.
  apply parse_refs_loop.
Qed.

(** A text that does not contain "[ref=" has no reference. *)
Theorem parse_refs_without_marker (snapshot : str) :
  contains (u "[ref=") snapshot = false -> parse_refs snapshot = [].
Proof.
  intros Hno. unfold parse_refs.
  assert (Hlines : Forall (fun line => index (u "[ref=") line = None)
                          (split LF snapshot)).
  { apply index_none_lines. rewrite join_split.
    unfold contains in Hno. by destruct (index (u "[ref=") snapshot). }
  induction Hlines as [|line lines Hline _ IH]; [done|].
  cbn [fold_left]. unfold parse_refs_step at 2, contains. by rewrite Hline.
Qed.

(** There is at most one reference per line. *)
Theorem parse_refs_bound (snapshot : str) :
  (length (parse_refs snapshot) <= length (split LF snapshot))%nat.
Proof.
  unfold parse_refs.
  assert (Hloop : forall lines refs,
    (length (fold_left parse_refs_step lines refs)
     <= length refs + length lines)%nat).
  { induction lines as [|line lines IH]; intros refs; cbn [fold_left length];
      [lia|].
    etransitivity; [apply IH|].
    assert (length (parse_refs_step refs line) <= S (length refs))%nat; [|lia].
    unfold parse_refs_step. destruct (contains _ line); [|lia].
    destruct (_ >? _); [|lia]. rewrite length_app. cbn. lia. }
  apply (Hloop _ []).
Qed.

End ParserExtras.

(** ** The orchestrator *)

Section OrchestratorExtras.
Context `{Builtins}.

Ltac stopped Heq :=
  apply pair_equal_spec in Heq as [<- <-];
  eexists; split;
  [ trace
  | split; [eexists; unfold capture_calls; cbn [app]; reflexivity
           |intros ? [=]] ].

Lemma capture_run (w : Driver) (target_url : str) (st st' : State)
    (r : result (list TextContent)) :
  capture w target_url st = (r, st') ->
  exists (fallback : bool) (tr : list op),
    calls st' = calls st ++ tr
    /\ tr `prefix_of` capture_calls target_url fallback
    /\ forall parts : list TextContent,
         r = Ok parts ->
         tr = capture_calls target_url fallback
         /\ length parts = 3%nat
         /\ Forall (fun part => TextContent.type part = u "text") parts.
Proof.
  unfold capture, Ok, Raise. intros Heq.
  step Heq. destruct (new_context w) as [e|[]]; [exists false; stopped Heq|].
  step Heq. destruct (new_page w) as [e|[]]; [exists false; stopped Heq|].
  do 4 step Heq.
  step Heq. destruct (outcome (goto w)) as [e|[]]; [exists false; stopped Heq|].
  step Heq.
  destruct (outcome (wait_for_load_state w)) as [e|[]];
    [exists false; stopped Heq|].
  step Heq. destruct (outcome (wait_for_selector w)) as [e|[]].
  - destruct (is_Exception e); [|exists false; stopped Heq].
    step Heq.
    destruct (outcome (wait_for_timeout w)) as [e'|[]];
      [exists true; stopped Heq|].
    step Heq.
    destruct (outcome (aria_snapshot w)) as [e'|snapshot];
      [exists true; stopped Heq|].
    step Heq.
    destruct (outcome (title w)) as [e'|page_title]; [exists true; stopped Heq|].
    step Heq. step Heq.
    destruct (outcome (context_close w)) as [e'|[]];
      [exists true; stopped Heq|].
    unfold ret in Heq. apply pair_equal_spec in Heq as [<- <-].
    exists true. eexists. split; [trace|].
    split; [by exists []|]. intros parts Hparts.
    apply (inj inr) in Hparts as <-.
    split; [reflexivity|]. split; [reflexivity|]. by repeat constructor.
  - step Heq.
    destruct (outcome (aria_snapshot w)) as [e'|snapshot];
      [exists false; stopped Heq|].
    step Heq.
    destruct (outcome (title w)) as [e'|page_title]; [exists false; stopped Heq|].
    step Heq. step Heq.
    destruct (outcome (context_close w)) as [e'|[]];
      [exists false; stopped Heq|].
    unfold ret in Heq. apply pair_equal_spec in Heq as [<- <-].
    exists false. eexists. split; [trace|].
    split; [by exists []|]. intros parts Hparts.
    apply (inj inr) in Hparts as <-.
    split; [reflexivity|]. split; [reflexivity|]. by repeat constructor.
Qed.


(** [website_snapshot] as one case analysis on the outcomes of the
    validator, the driver's start, the launch, the [try] block, the close of
    the browser and the driver's exit. *)
Lemma website_snapshot_run (w : Driver) (target_url : str) (st : State) :
  website_snapshot w target_url st
  = match is_valid_url target_url with
    | inl e => (inl e, st)
    | inr false =>
      (inr [text_content (u "Url must be valid, example: https://example.com")],
       st)
    | inr true =>
      match start w with
      | inl e => (inl e, snd (log Start st))
      | inr _ =>
        let '(r, st_b) :=
          match launch w with
          | inl e => (inl e, snd (log Launch (snd (log Start st))))
          | inr _ =>
            let '(r, st1) :=
              capture w target_url (snd (log Launch (snd (log Start st)))) in
            let r1 :=
              match r with
              | inl e =>
                if is_Exception e
                then inr [text_content (u "❌ Failed: " ++ message e)]
                else inl e
              | inr parts => inr parts
              end in
            (match browser_close w with inl e => inl e | inr _ => r1 end,
             snd (log BrowserClose st1))
          end in
        (match stop w with inl e => inl e | inr _ => r end,
         snd (log Stop st_b))
      end
    end.
Proof.
  unfold website_snapshot, bind at 1, lift.
  destruct (is_valid_url target_url) as [e|[|]]; [done| |done].
  cbn [negb]. unfold async_with.
  rewrite (bind_run _ _ st _ _ (invoke_run Start (start w) st)).
  destruct (start w) as [e|[]]; [done|].
  unfold try_finally at 1.
  rewrite (bind_run _ _ _ _ _ (invoke_run Launch (launch w) _)).
  destruct (launch w) as [e|[]];
    [rewrite invoke_run; by destruct (stop w)|].
  unfold try_finally, try_except.
  destruct (capture w target_url _) as [[e|parts] st1].
  - destruct (is_Exception e); unfold failed, ret;
      rewrite !invoke_run; destruct (browser_close w); by destruct (stop w).
  - rewrite !invoke_run; destruct (browser_close w); by destruct (stop w).
Qed.


(** A call to [website_snapshot] that returns gives either one text unit or
    three, all of type "text". *)
Theorem website_snapshot_shape (w : Driver) (target_url : str)
    (st st' : State) (parts : list TextContent) :
  website_snapshot w target_url st = (Ok parts, st') ->
  (length parts = 1%nat \/ length parts = 3%nat)
  /\ Forall (fun part => TextContent.type part = u "text") parts.
Proof.
  rewrite website_snapshot_run. unfold Ok.
  destruct (is_valid_url target_url) as [e|[|]]; [done| |].
  - destruct (start w) as [e|[]]; [done|].
    destruct (launch w) as [e|[]]; [by destruct (stop w)|].
    destruct (capture w target_url _) as [r st1] eqn:Hcap.
    apply capture_run in Hcap as (fallback & tr & _ & _ & Hok).
    destruct (stop w); [done|]. destruct (browser_close w); [done|].
    destruct r as [e|captured].
    + destruct (is_Exception e); [|done]. intros Heq; inversion Heq; subst.
      split; [by left|by repeat constructor].
    + intros Heq; inversion Heq; subst.
      destruct (Hok parts eq_refl) as (_ & Hlen & Htype).
      split; [by right|done].
  - intros Heq; inversion Heq; subst.
    split; [by left|by repeat constructor].
Qed.

(** The calls on the driver are always made in the same order: start,
    launch, the calls of the [try] block up to and including the first that
    fails, then the close of the browser and the driver's exit. A failed
    wait for an interactive element (an error of class [Exception]) does not
    stop the sequence: the fixed delay follows it. In particular the three
    callbacks are registered before the navigation starts, and a report of
    three text units is returned only after all the calls were made. *)
Theorem website_snapshot_call_order (w : Driver) (target_url : str) :
  is_valid_url target_url = Ok true ->
  start w = Ok tt ->
  launch w = Ok tt ->
  calls (snd (website_snapshot w target_url initial))
  = [Start; Launch] ++ calls_until_failure (capture_steps w target_url)
    ++ [BrowserClose; Stop]
  /\ exists fallback : bool,
       calls_until_failure (capture_steps w target_url)
         `prefix_of` capture_calls target_url fallback
       /\ forall parts : list TextContent,
            fst (website_snapshot w target_url initial) = Ok parts ->
            length parts = 3%nat ->
            calls_until_failure (capture_steps w target_url)
            = capture_calls target_url fallback.
Proof.
  intros Hv Hs Hl. rewrite website_snapshot_run, Hv, Hs, Hl. unfold Ok.
  destruct (capture w target_url _) as [r st1] eqn:Hcap.
  destruct (capture_outcome _ _ _ _ _ Hcap) as [Hmade _].
  apply capture_run in Hcap as (fallback & tr & Hcalls & Hprefix & Hok).
  assert (tr = calls_until_failure (capture_steps w target_url)) as Htr
    by (rewrite Hmade in Hcalls; by apply app_inv_head in Hcalls).
  subst tr. split; [|exists fallback; split; [exact Hprefix|]].
  - cbn [snd]. rewrite !calls_log, Hmade, !calls_log.
    cbn [calls initial app]. by rewrite <- !app_assoc.
  - intros parts. cbn [fst].
    destruct (stop w); [done|]. destruct (browser_close w); [done|].
    destruct r as [e|captured].
    + destruct (is_Exception e); [|done]. by intros [= <-].
    + intros [= <-] _. by destruct (Hok captured eq_refl).
Qed.

(** An error of the [try] block whose class does not derive from
    [Exception] is not turned into a text unit: it leaves
    [website_snapshot] as raised. *)
Theorem uncaught_error_propagates (w : Driver) (target_url : str) (e : exn)
    (st1 : State) :
  is_valid_url target_url = Ok true ->
  start w = Ok tt ->
  launch w = Ok tt ->
  capture w target_url launched = (Raise e, st1) ->
  is_Exception e = false ->
  browser_close w = Ok tt ->
  stop w = Ok tt ->
  fst (website_snapshot w target_url initial) = Raise e.
Proof.
  intros Hv Hs Hl Hcap Hexc Hclose Hstop.
  rewrite website_snapshot_run, Hv, Hs, Hl. unfold Ok, Raise in *.
  change (snd (log Launch (snd (log Start initial)))) with launched.
  by rewrite Hcap, Hexc, Hclose, Hstop.
Qed.

(** An error raised by the close of the browser replaces the outcome of the
    capture, also a successful report. *)
Theorem close_failure_replaces_result (w : Driver) (target_url : str) (e : exn) :
  is_valid_url target_url = Ok true ->
  start w = Ok tt ->
  launch w = Ok tt ->
  browser_close w = Raise e ->
  stop w = Ok tt ->
  fst (website_snapshot w target_url initial) = Raise e.
Proof.
  intros Hv Hs Hl Hclose Hstop.
  rewrite website_snapshot_run, Hv, Hs, Hl. unfold Ok, Raise in *.
  destruct (capture w target_url _) as [r st1].
  by rewrite Hclose, Hstop.
Qed.

(** An error of the URL parser leaves [website_snapshot] as raised, before
    any call on the driver. *)
Theorem validator_error_propagates (w : Driver) (target_url : str) (e : exn)
    (st : State) :
  is_valid_url target_url = Raise e ->
  website_snapshot w target_url st = (Raise e, st).
Proof. intros Hv. by rewrite website_snapshot_run, Hv. Qed.


Lemma requests_all_set (nrs : list NetworkRequest) (requests : list Request.t) :
  map NetworkRequest.request nrs = map Some requests ->
  length (filter (fun r => is_set (NetworkRequest.request r)) nrs)
  = length requests.
Proof.
  revert requests. induction nrs as [|entry nrs IH]; intros [|q requests];
    try done.
  cbn [map]. intros [= Hq Hrest].
  rewrite filter_cons_True by (by rewrite Hq). cbn [length].
  by rewrite (IH requests).
Qed.

Lemma network_log (o : op) (st : State) :
  network_requests (snd (log o st)) = network_requests st.
Proof. reflexivity. Qed.

Lemma console_log (o : op) (st : State) :
  console_messages (snd (log o st)) = console_messages st.
Proof. reflexivity. Qed.

Ltac next Heq Hyp :=
  step Heq; rewrite Hyp in Heq; cbv beta iota in Heq.

(** The report of a run in which every call succeeds, with each callback
    taken as one step. *)
Lemma snapshot_report_run (w : Driver) (target_url : str)
    (snapshot page_title : str) (waited : list event) :
  is_valid_url target_url = Ok true ->
  start w = Ok tt ->
  launch w = Ok tt ->
  new_context w = Ok tt ->
  new_page w = Ok tt ->
  outcome (goto w) = Ok tt ->
  outcome (wait_for_load_state w) = Ok tt ->
  soft_wait w waited ->
  outcome (aria_snapshot w) = Ok snapshot ->
  outcome (title w) = Ok page_title ->
  outcome (context_close w) = Ok tt ->
  browser_close w = Ok tt ->
  stop w = Ok tt ->
  let events :=
    delivered (goto w) ++ delivered (wait_for_load_state w) ++ waited
    ++ delivered (aria_snapshot w) ++ delivered (title w) in
  catchable events ->
  let annotated := add_element_refs snapshot in
  let refs := parse_refs annotated in
  fst (website_snapshot w target_url initial)
  = Ok [text_content
          (u "✅ Captured snapshot with "
           ++ join (u ", ")
                [str_of_int (Z.of_nat (length refs)) ++ u " elements";
                 str_of_int (Z.of_nat (length (requested events)))
                 ++ u " requests";
                 str_of_int (Z.of_nat (length (logged events)))
                 ++ u " console messages"]);
        text_content
          (join [LF]
             [u "🔍 " ++ page_title; u "📍 " ++ page_url w; u "";
              u "🎭 Accessibility Snapshot:"; annotated;
              u ""; u "🌐 Network Requests:";
              format_requests (network_requests (record events initial));
              u ""; u "🖥️ Console:"; format_console (logged events)]);
        text_content
          (u "🎯 Element References:" ++ [LF]
           ++ join [LF]
                (map (fun r => u "[ref=" ++ ref r ++ u "]: " ++ element r)
                     refs))].
Proof.
  intros Hv Hs Hl Hctx Hpage Hgoto Hload Hwait Hsnap Htitle Hcc Hclose Hstop
    events Hcatch annotated refs.
  rewrite website_snapshot_run, Hv, Hs, Hl. unfold Ok, Raise in *.
  destruct (capture w target_url _) as [r st1] eqn:Heq.
  unfold capture in Heq.
  next Heq Hctx. next Heq Hpage. do 4 step Heq.
  next Heq Hgoto. next Heq Hload. step Heq.
  assert (Hreq : forall seen : State,
    network_requests seen = network_requests (record events initial) ->
    length (filter (fun r => is_set (NetworkRequest.request r))
                   (network_requests seen))
    = length (requested events)).
  { intros seen ->. apply requests_all_set.
    by rewrite (record_requests events initial Hcatch). }
  assert (Hmsg : console_messages (record events initial) = logged events)
    by apply record_console_messages.
  unfold soft_wait, Ok, Raise in Hwait.
  destruct Hwait as [[Hsel ->]|(e & Hsel & Hexc & Htimeout & ->)];
    rewrite Hsel in Heq; cbv beta iota in Heq;
    [|rewrite Hexc in Heq; next Heq Htimeout];
    next Heq Hsnap; next Heq Htitle; step Heq; next Heq Hcc;
    unfold ret in Heq; apply pair_equal_spec in Heq as [<- _];
    rewrite Hclose, Hstop; cbv beta iota zeta delta [fst];
    lazymatch goal with
    | |- context [format_requests (network_requests ?seen)] =>
      assert (Hn : network_requests seen
                   = network_requests (record events initial))
        by (unfold events;
            repeat first [rewrite record_log | rewrite network_log];
            rewrite <- !record_app, <- ?app_assoc; reflexivity);
      assert (Hc : console_messages seen
                   = console_messages (record events initial))
        by (unfold events;
            repeat first [rewrite record_log | rewrite console_log];
            rewrite <- !record_app, <- ?app_assoc; reflexivity);
      rewrite (Hreq seen Hn), Hc, Hn, Hmsg
    end;
    reflexivity.
Qed.

(** When every call succeeds, the wait for an interactive element possibly
    through its fallback, and no read of a request body raises an error
    outside class [Exception], the three text units are the summary, the
    report and the reference table, built from the snapshot, the title and
    the events delivered up to the read of the title. The summary counts the
    parsed references, the request events and the console events; the
    network section formats a list of records that carry the requests of
    the request events, in order; what the page delivers while the context
    closes is not reported. *)
Theorem snapshot_report (w : Driver) (target_url : str)
    (snapshot page_title : str) (waited : list event) :
  is_valid_url target_url = Ok true ->
  start w = Ok tt ->
  launch w = Ok tt ->
  new_context w = Ok tt ->
  new_page w = Ok tt ->
  outcome (goto w) = Ok tt ->
  outcome (wait_for_load_state w) = Ok tt ->
  soft_wait w waited ->
  outcome (aria_snapshot w) = Ok snapshot ->
  outcome (title w) = Ok page_title ->
  outcome (context_close w) = Ok tt ->
  browser_close w = Ok tt ->
  stop w = Ok tt ->
  let events :=
    delivered (goto w) ++ delivered (wait_for_load_state w) ++ waited
    ++ delivered (aria_snapshot w) ++ delivered (title w) in
  catchable events ->
  let annotated := add_element_refs snapshot in
  let refs := parse_refs annotated in
  exists nrs : list NetworkRequest,
    map NetworkRequest.request nrs = map Some (requested events)
    /\ fst (website_snapshot w target_url initial)
       = Ok [text_content
               (u "✅ Captured snapshot with "
                ++ join (u ", ")
                     [str_of_int (Z.of_nat (length refs)) ++ u " elements";
                      str_of_int (Z.of_nat (length (requested events)))
                      ++ u " requests";
                      str_of_int (Z.of_nat (length (logged events)))
                      ++ u " console messages"]);
             text_content
               (join [LF]
                  [u "🔍 " ++ page_title; u "📍 " ++ page_url w; u "";
                   u "🎭 Accessibility Snapshot:"; annotated;
                   u ""; u "🌐 Network Requests:"; format_requests nrs;
                   u ""; u "🖥️ Console:"; format_console (logged events)]);
             text_content
               (u "🎯 Element References:" ++ [LF]
                ++ join [LF]
                     (map (fun r => u "[ref=" ++ ref r ++ u "]: " ++ element r)
                          refs))].
Proof.
  intros Hv Hs Hl Hctx Hpage Hgoto Hload Hwait Hsnap Htitle Hcc Hclose Hstop
    events Hcatch annotated refs.
  exists (network_requests (record events initial)). split.
  - exact (record_requests events initial Hcatch).
  - exact (snapshot_report_run w target_url snapshot page_title waited
             Hv Hs Hl Hctx Hpage Hgoto Hload Hwait Hsnap Htitle Hcc Hclose
             Hstop Hcatch).
Qed.

End OrchestratorExtras.

(** ** The further properties at sample inputs *)

Lemma browser_closed_once_witness :
  @is_valid_url CPython.builtins (u "https://example.com") = Ok true
  /\ browser_closes
       (snd (@website_snapshot CPython.builtins Sample.context_fails
               (u "https://example.com") initial)) = 1%nat.
Proof.
  split; [vm_compute; reflexivity|].
  apply (@browser_closed_once CPython.builtins Sample.context_fails
           (u "https://example.com")); vm_compute; reflexivity.
Defined.

Lemma website_snapshot_call_order_witness :
  @is_valid_url CPython.builtins (u "https://example.com") = Ok true
  /\ calls (snd (@website_snapshot CPython.builtins Sample.context_fails
                   (u "https://example.com") initial))
     = [Start; Launch; NewContext; BrowserClose; Stop]
  /\ calls (snd (@website_snapshot CPython.builtins Sample.no_marker
                   (u "https://example.com") initial))
     = [Start; Launch] ++ capture_calls (u "https://example.com") true
       ++ [BrowserClose; Stop].
Proof.
  assert (Hv : @is_valid_url CPython.builtins (u "https://example.com")
               = Ok true) by (vm_compute; reflexivity).
  split; [exact Hv|]. split.
  - destruct (@website_snapshot_call_order CPython.builtins
                Sample.context_fails (u "https://example.com")
                Hv eq_refl eq_refl) as [Hcalls _].
    rewrite Hcalls. reflexivity.
  - destruct (@website_snapshot_call_order CPython.builtins
                Sample.no_marker (u "https://example.com")
                Hv eq_refl eq_refl) as [Hcalls _].
    rewrite Hcalls. reflexivity.
Defined.

Lemma website_snapshot_shape_witness :
  @website_snapshot CPython.builtins Sample.context_fails
    (u "https://example.com") initial
  = (Ok [text_content (u "❌ Failed: Browser context creation failed")],
     {| calls := [Start; Launch; NewContext; BrowserClose; Stop];
        network_requests := []; console_messages := [] |})
  /\ length [text_content (u "❌ Failed: Browser context creation failed")]
     = 1%nat.
Proof.
  assert (Hrun : @website_snapshot CPython.builtins Sample.context_fails
                   (u "https://example.com") initial
                 = (Ok [text_content
                          (u "❌ Failed: Browser context creation failed")],
                    {| calls := [Start; Launch; NewContext; BrowserClose; Stop];
                       network_requests := []; console_messages := [] |}))
    by (vm_compute; reflexivity).
  split; [exact Hrun|].
  destruct (@website_snapshot_shape CPython.builtins _ _ _ _ _ Hrun)
    as [[Hone|Hthree] _]; [exact Hone|discriminate Hthree].
Defined.

Lemma snapshot_report_witness :
  catchable
    (delivered (goto Sample.busy_page)
     ++ delivered (wait_for_load_state Sample.busy_page)
     ++ delivered (wait_for_selector Sample.busy_page)
     ++ delivered (aria_snapshot Sample.busy_page)
     ++ delivered (title Sample.busy_page))
  /\ exists report table : TextContent,
       fst (@website_snapshot CPython.builtins Sample.busy_page
              (u "https://example.com") initial)
       = Ok [text_content
               (u "✅ Captured snapshot with 1 elements, 1 requests, 1 console messages");
             report; table].
Proof.
  assert (Hcatch : catchable
    (delivered (goto Sample.busy_page)
     ++ delivered (wait_for_load_state Sample.busy_page)
     ++ delivered (wait_for_selector Sample.busy_page)
     ++ delivered (aria_snapshot Sample.busy_page)
     ++ delivered (title Sample.busy_page))).
  { repeat constructor. intros e. discriminate. }
  split; [exact Hcatch|].
  assert (Hv : @is_valid_url CPython.builtins (u "https://example.com")
               = Ok true) by (vm_compute; reflexivity).
  pose proof (@snapshot_report CPython.builtins Sample.busy_page
                (u "https://example.com") (u "button Click Me") (u "Test Page")
                (delivered (wait_for_selector Sample.busy_page))
                Hv eq_refl eq_refl eq_refl eq_refl eq_refl eq_refl
                (or_introl (conj eq_refl eq_refl))
                eq_refl eq_refl eq_refl eq_refl eq_refl Hcatch) as Hreport.
  cbv zeta in Hreport. destruct Hreport as (nrs & _ & Hreport).
  rewrite Hreport.
  match goal with
  | |- context [text_content (u "✅ Captured snapshot with " ++ ?counts)] =>
    replace (u "✅ Captured snapshot with " ++ counts)
      with (u "✅ Captured snapshot with 1 elements, 1 requests, 1 console messages")
      by (vm_compute; reflexivity)
  end.
  eexists _, _. reflexivity.
Defined.

Lemma uncaught_error_propagates_witness :
  is_Exception {| is_Exception := false; message := u "CancelledError" |} = false
  /\ fst (@website_snapshot CPython.builtins Sample.cancelled
            (u "https://example.com") initial)
     = Raise {| is_Exception := false; message := u "CancelledError" |}.
Proof.
  split; [reflexivity|].
  apply (@uncaught_error_propagates CPython.builtins Sample.cancelled
           (u "https://example.com")
           {| is_Exception := false; message := u "CancelledError" |}
           {| calls := [Start; Launch; NewContext]; network_requests := [];
              console_messages := [] |});
    vm_compute; reflexivity.
Defined.

Lemma close_failure_replaces_result_witness :
  browser_close Sample.close_fails = Raise (Sample.Exception (u "Target closed"))
  /\ fst (@website_snapshot CPython.builtins Sample.close_fails
            (u "https://example.com") initial)
     = Raise (Sample.Exception (u "Target closed")).
Proof.
  split; [reflexivity|].
  apply (@close_failure_replaces_result CPython.builtins Sample.close_fails
           (u "https://example.com") (Sample.Exception (u "Target closed")));
    vm_compute; reflexivity.
Defined.

Lemma validator_error_propagates_witness :
  @is_valid_url CPython.builtins (u "http://[")
  = Raise (CPython.ValueError (u "Invalid IPv6 URL"))
  /\ @website_snapshot CPython.builtins Sample.page (u "http://[") initial
     = (Raise (CPython.ValueError (u "Invalid IPv6 URL")), initial).
Proof.
  assert (Hv : @is_valid_url CPython.builtins (u "http://[")
               = Raise (CPython.ValueError (u "Invalid IPv6 URL")))
    by (vm_compute; reflexivity).
  split; [exact Hv|].
  exact (@validator_error_propagates CPython.builtins Sample.page
           (u "http://[") _ initial Hv).
Defined.

Lemma handle_request_appends_witness :
  @has_body CPython.builtins Sample.post_form = true
  /\ @handle_request CPython.builtins Sample.post_form [Sample.pending]
     = [Sample.pending;
        {| NetworkRequest.request := Some Sample.post_form;
           NetworkRequest.response := None;
           NetworkRequest.request_body := Some (u "name=a");
           NetworkRequest.response_body := None |}].
Proof.
  assert (Hbody : @has_body CPython.builtins Sample.post_form = true)
    by (vm_compute; reflexivity).
  split; [exact Hbody|].
  destruct (@handle_request_appends CPython.builtins Sample.post_form
              [Sample.pending]) as (_ & Hread & _).
  exact (Hread Hbody (Some (u "name=a")) eq_refl).
Defined.

Lemma response_finds_its_request_witness :
  distinct_handles [Sample.pending]
  /\ @handle_response CPython.builtins Sample.ok_json [Sample.pending]
     = [@attach CPython.builtins Sample.pending Sample.ok_json].
Proof.
  assert (Hdistinct : distinct_handles [Sample.pending]).
  { intros [|i] [|j] a b p q Ha Hb; try reflexivity; discriminate. }
  split; [exact Hdistinct|].
  exact (@response_finds_its_request CPython.builtins Sample.ok_json
           [Sample.pending] 0%nat Sample.pending Hdistinct eq_refl eq_refl).
Defined.

Lemma one_record_per_request_witness :
  catchable [on_request Sample.get_data; on_response Sample.ok_json;
             on_console Sample.loaded]
  /\ map NetworkRequest.request
       (network_requests
          (@record CPython.builtins
             [on_request Sample.get_data; on_response Sample.ok_json;
              on_console Sample.loaded] initial))
     = [Some Sample.get_data].
Proof.
  assert (Hcatch : catchable [on_request Sample.get_data;
                              on_response Sample.ok_json;
                              on_console Sample.loaded]).
  { repeat constructor. intros e. discriminate. }
  split; [exact Hcatch|].
  exact (@one_record_per_request CPython.builtins _ initial Hcatch).
Defined.

Lemma missing_headers_witness :
  @int CPython.builtins (u "0") = Ok 0
  /\ Response.headers Sample.bare !! u "content-length" = None
  /\ NetworkRequest.response_body
       (@attach CPython.builtins Sample.pending Sample.bare)
     = Some (u "[ - 0 bytes]").
Proof.
  assert (Hzero : @int CPython.builtins (u "0") = Ok 0)
    by (vm_compute; reflexivity).
  split; [exact Hzero|]. split; [reflexivity|].
  exact (proj1 (@missing_headers CPython.builtins Sample.pending Sample.bare
                  Hzero eq_refl) eq_refl).
Defined.

Lemma format_requests_without_handle_witness :
  Forall (fun req => NetworkRequest.request req = None) [Sample.orphan]
  /\ format_requests [Sample.orphan] = u "".
Proof.
  assert (Hall : Forall (fun req => NetworkRequest.request req = None)
                        [Sample.orphan]) by (repeat constructor).
  split; [exact Hall|].
  apply format_requests_without_handle; [discriminate|exact Hall].
Defined.

Lemma format_requests_short_body_witness :
  (length (u "{'status': 'ok'}") <= 200)%nat
  /\ entry_lines (Sample.with_body (Some (u "{'status': 'ok'}"))) !! 2%nat
     = Some (u "   Response: " ++ u "{'status': 'ok'}" ++ u "...").
Proof.
  assert (Hlen : (length (u "{'status': 'ok'}") <= 200)%nat)
    by (vm_compute; lia).
  split; [exact Hlen|].
  apply (format_requests_short_body _ Sample.get_data);
    [reflexivity|reflexivity|discriminate|exact Hlen].
Defined.

Lemma format_console_lines_witness :
  Forall (no_char LF) (map (@format_message CPython.builtins) [Sample.loaded])
  /\ split LF (@format_console CPython.builtins [Sample.loaded])
     = [@format_message CPython.builtins Sample.loaded].
Proof.
  assert (Hall : Forall (no_char LF)
                        (map (@format_message CPython.builtins) [Sample.loaded])).
  { vm_compute. repeat constructor; discriminate. }
  split; [exact Hall|].
  apply (@format_console_lines CPython.builtins [Sample.loaded]);
    [discriminate|exact Hall].
Defined.

Lemma add_element_refs_plain_witness :
  Forall (fun line => @is_interactive CPython.builtins line = false)
         (split LF (u "heading Example Page"))
  /\ @add_element_refs CPython.builtins (u "heading Example Page")
     = u "heading Example Page".
Proof.
  assert (Hplain : Forall (fun line => @is_interactive CPython.builtins line = false)
                          (split LF (u "heading Example Page"))).
  { change (split LF (u "heading Example Page")) with [u "heading Example Page"].
    constructor; [vm_compute; reflexivity|constructor]. }
  split; [exact Hplain|].
  exact (@add_element_refs_plain CPython.builtins _ Hplain).
Defined.

Lemma parse_refs_step_marker_witness :
  contains (u "[ref=") (u "button Submit ") = false
  /\ parse_refs_step [] (u "button Submit " ++ u "[ref=" ++ u "1" ++ u "]" ++ u " (x)")
     = [{| ref := u "1"; element := strip (u "button Submit ") |}].
Proof.
  assert (Hno : contains (u "[ref=") (u "button Submit ") = false)
    by (vm_compute; reflexivity).
  split; [exact Hno|].
  apply (parse_refs_step_marker [] (u "button Submit ") (u "1") (u " (x)") Hno).
  - unfold no_char. repeat constructor. discriminate.
  - discriminate.
Defined.

Lemma parse_refs_step_malformed_witness :
  contains (u "[ref=") (u "link Home ") = false
  /\ parse_refs_step [] (u "link Home " ++ u "[ref=" ++ u "]" ++ u "") = []
  /\ parse_refs_step [] (u "link Home " ++ u "[ref=" ++ u "12") = [].
Proof.
  assert (Hno : contains (u "[ref=") (u "link Home ") = false)
    by (vm_compute; reflexivity).
  split; [exact Hno|].
  destruct (parse_refs_step_malformed [] (u "link Home ") (u "") Hno)
    as [Hempty _].
  destruct (parse_refs_step_malformed [] (u "link Home ") (u "12") Hno)
    as [_ Hopen].
  split; [exact Hempty|]. apply Hopen.
  unfold no_char. repeat constructor; discriminate.
Defined.

Lemma parse_refs_without_marker_witness :
  contains (u "[ref=") Sample.page_snapshot = false
  /\ parse_refs Sample.page_snapshot = [].
Proof.
  assert (Hno : contains (u "[ref=") Sample.page_snapshot = false)
    by (vm_compute; reflexivity).
  split; [exact Hno|]. exact (parse_refs_without_marker _ Hno).
Defined.
